(** * A shallow embedding of pyteensy's packet codec and coordinator thread

    Source: [src/pyteensy.py] (classes [_TeensyPackage], [TeensyLineEvent],
    [TeensyError], [Teensy]).  Bytes are [Z] values in [0, 256); the values
    that [struct.unpack] returns are [pyval]s; the coordinator thread is
    written in a small state/exception monad over the scripted transport
    (the bytes still to be read) and a log of observable effects (frames
    written, events put on [self.events], answers put on [self._aqueue]). *)

From Stdlib Require Import Ascii String ZArith List Bool Lia.
Import ListNotations.
Open Scope Z_scope.

(** ** Python values and exceptions *)

Inductive pyval :=
| VInt (z : Z)
| VBytes (b : list Z).

Fixpoint bytes_eqb (a b : list Z) : bool :=
  match a, b with
  | [], [] => true
  | x :: a', y :: b' => Z.eqb x y && bytes_eqb a' b'
  | _, _ => false
  end.

(** Python [==] on the values [struct.unpack] produces. *)
Definition pyval_eqb (a b : pyval) : bool :=
  match a, b with
  | VInt x, VInt y => Z.eqb x y
  | VBytes x, VBytes y => bytes_eqb x y
  | _, _ => false
  end.

(** Answers the coordinator puts on [self._aqueue]: an int error code
    ([reply.put(answer)] with a [TeensyError] constant), the pair
    [(TeensyError.NO_ERROR, time)] of [_time], or the pair
    [(TeensyError(TeensyError.TEENSY_ERROR), None)] of its else branch. *)
Inductive answer :=
| AInt (code : Z)
| ATuple (code : Z) (v : pyval)
| ATupleErr.

Inductive exn :=
| StructError
| KeyError
| IndexError
| ValueError
| TypeError
| NameError
| AssertionError
| QueueEmpty
| TeensyErrorRaised (arg : answer).

Inductive result (A : Type) :=
| Ok (a : A)
| Raise (e : exn).
Arguments Ok {A} a.
Arguments Raise {A} e.

(** ** [_TeensyPackage]: message kinds and struct layouts *)

Definition IDENTIFY := 1.
Definition REGISTER_INPUT := 2.
Definition REGISTER_SINGLE_SHOT := 3.
Definition DEREGISTER_INPUT := 4.
Definition TIME := 5.
Definition TIME_SET := 6.
Definition ACKNOWLEDGE_SUCCES := 7.
Definition ACKNOWLEDGE_FAILURE := 8.
Definition ACKNOWLEDGE_LINE_INVALID := 9.
Definition ACKNOWLEDGE_TIME := 10.
Definition EVENT_TRIGGER := 11.

Definition bytes_of_string (s : string) : list Z :=
  map (fun a => Z.of_nat (nat_of_ascii a)) (list_ascii_of_string s).

Definition ZEP_TEENSY_TO_ZEP_UUID : list Z :=
  bytes_of_string "7d945241-0238-4c29-95e4-7d9864710ea2".
Definition ZEP_ZEP_TO_TEENSY_UUID : list Z :=
  bytes_of_string "91ae4c34-00b0-4d91-9000-ccc0989ac92a".

(** Items of a little-endian struct format: ["B"], ["Q"] and ["<n>s"]. *)
Inductive fmt_item :=
| FB
| FQ
| FS (n : nat).

Definition item_size (f : fmt_item) : nat :=
  match f with FB => 1 | FQ => 8 | FS n => n end%nat.

Definition fmt_size (fs : list fmt_item) : nat :=
  fold_right (fun f acc => (item_size f + acc)%nat) 0%nat fs.

Definition _HEADER : list fmt_item := [FB; FB].
Definition _UUID : fmt_item := FS (length ZEP_TEENSY_TO_ZEP_UUID).
Definition _BYTE : fmt_item := FB.
Definition _UINT64 : fmt_item := FQ.

Definition _IDENTIFY := _HEADER ++ [_UUID].
Definition _REGISTER_INPUT := _HEADER ++ [_BYTE].
Definition _REGISTER_SINGLE_SHOT := _HEADER ++ [_BYTE].
Definition _DEREGISTER_INPUT := _HEADER ++ [_BYTE].
Definition _TIME := _HEADER.
Definition _TIME_SET := _HEADER ++ [_UINT64].
Definition _ACKNOWLEDGE_SUCCES := _HEADER.
Definition _ACKNOWLEDGE_FAILURE := _HEADER.
Definition _ACKNOWLEDGE_LINE_INVALID := _HEADER.
Definition _ACKNOWLEDGE_TIME := _HEADER ++ [_UINT64].
Definition _EVENT_TRIGGER := _HEADER ++ [_BYTE; _UINT64; _BYTE].

Definition _HDR_SZ := 2.
Definition _MSG_SZ := 254.

(** [_payload_dict]: the struct that parses each message kind. *)
Definition _payload_dict (k : Z) : option (list fmt_item) :=
  if k =? IDENTIFY then Some _IDENTIFY
  else if k =? REGISTER_INPUT then Some _REGISTER_INPUT
  else if k =? REGISTER_SINGLE_SHOT then Some _REGISTER_SINGLE_SHOT
  else if k =? DEREGISTER_INPUT then Some _DEREGISTER_INPUT
  else if k =? TIME then Some _TIME
  else if k =? TIME_SET then Some _TIME_SET
  else if k =? ACKNOWLEDGE_SUCCES then Some _ACKNOWLEDGE_SUCCES
  else if k =? ACKNOWLEDGE_FAILURE then Some _ACKNOWLEDGE_FAILURE
  else if k =? ACKNOWLEDGE_LINE_INVALID then Some _ACKNOWLEDGE_LINE_INVALID
  else if k =? ACKNOWLEDGE_TIME then Some _ACKNOWLEDGE_TIME
  else if k =? EVENT_TRIGGER then Some _EVENT_TRIGGER
  else None.

Definition _events (k : Z) : bool := k =? EVENT_TRIGGER.

(** ** [struct.pack] and [struct.unpack] for these formats *)

Fixpoint le_bytes (n : nat) (z : Z) : list Z :=
  match n with
  | O => []
  | S n' => Z.land z 255 :: le_bytes n' (Z.shiftr z 8)
  end.

Fixpoint le_value (bs : list Z) : Z :=
  match bs with
  | [] => 0
  | b :: bs' => b + Z.shiftl (le_value bs') 8
  end.

(** A ["B"] or ["Q"] item out of range raises [struct.error]; an ["ns"]
    item truncates longer bytes and pads shorter ones with zero bytes. *)
Definition pack_item (f : fmt_item) (v : pyval) : result (list Z) :=
  match f, v with
  | FB, VInt z => if (0 <=? z) && (z <? 256) then Ok [z] else Raise StructError
  | FQ, VInt z =>
      if (0 <=? z) && (z <? 2 ^ 64) then Ok (le_bytes 8 z) else Raise StructError
  | FS n, VBytes b => Ok (firstn n b ++ repeat 0 (n - length b))
  | _, _ => Raise StructError
  end.

Fixpoint pack (fs : list fmt_item) (vs : list pyval) : result (list Z) :=
  match fs, vs with
  | [], [] => Ok []
  | f :: fs', v :: vs' =>
      match pack_item f v with
      | Ok b =>
          match pack fs' vs' with
          | Ok r => Ok (b ++ r)
          | Raise e => Raise e
          end
      | Raise e => Raise e
      end
  | _, _ => Raise StructError
  end.

Fixpoint unpack_items (fs : list fmt_item) (b : list Z) : list pyval :=
  match fs with
  | [] => []
  | FB :: fs' => VInt (hd 0 b) :: unpack_items fs' (tl b)
  | FQ :: fs' => VInt (le_value (firstn 8 b)) :: unpack_items fs' (skipn 8 b)
  | FS n :: fs' => VBytes (firstn n b) :: unpack_items fs' (skipn n b)
  end.

(** [unpack] requires a buffer of exactly the struct's size. *)
Definition unpack (fs : list fmt_item) (b : list Z) : result (list pyval) :=
  if Nat.eqb (length b) (fmt_size fs) then Ok (unpack_items fs b)
  else Raise StructError.

(** ** [_TeensyPackage] methods over its buffer [buf] *)

Definition buf_index (buf : list Z) (i : nat) : result Z :=
  match nth_error buf i with Some z => Ok z | None => Raise IndexError end.

Definition pkgtype (buf : list Z) : result Z := buf_index buf 1.

Definition parse_packet (buf : list Z) : result (list pyval) :=
  match buf_index buf 1 with
  | Ok k =>
      match _payload_dict k with
      | Some fs => unpack fs buf
      | None => Raise KeyError
      end
  | Raise e => Raise e
  end.

(** [is_event]: the else branch returns the undefined name [false]. *)
Definition is_event (buf : list Z) : result bool :=
  if negb (Nat.eqb (length buf) 0) && Nat.leb 2 (length buf) then
    match pkgtype buf with
    | Ok k => Ok (_events k)
    | Raise e => Raise e
    end
  else Raise NameError.

Definition prepare_identify (uuid : list Z) : result (list Z) :=
  pack _IDENTIFY [VInt (_HDR_SZ + Z.of_nat (length uuid)); VInt IDENTIFY; VBytes uuid].

Definition prepare_register (line : Z) : result (list Z) :=
  pack _REGISTER_INPUT [VInt (_HDR_SZ + 1); VInt REGISTER_INPUT; VInt line].

Definition prepare_deregister (line : Z) : result (list Z) :=
  pack _DEREGISTER_INPUT [VInt (_HDR_SZ + 1); VInt DEREGISTER_INPUT; VInt line].

Definition prepare_single_shot (line : Z) : result (list Z) :=
  pack _REGISTER_SINGLE_SHOT [VInt (_HDR_SZ + 1); VInt REGISTER_SINGLE_SHOT; VInt line].

Definition prepare_time : result (list Z) :=
  pack _TIME [VInt _HDR_SZ; VInt TIME].

Definition prepare_set_time (time_us : Z) : result (list Z) :=
  pack _TIME_SET [VInt (_HDR_SZ + 8); VInt TIME_SET; VInt time_us].

(** ** [TeensyLineEvent] *)

Definition LOW := 0.
Definition HIGH := 1.

Record TeensyLineEvent_t := {
  timestamp : Z;
  line : Z;
  logiclevel : Z
}.

(** [self.logiclevel = self.HIGH if logiclevel else self.LOW] *)
Definition TeensyLineEvent (time line logiclevel : Z) : TeensyLineEvent_t :=
  {| timestamp := time; line := line;
     logiclevel := if logiclevel =? 0 then LOW else HIGH |}.

(** [TeensyError] codes *)
Definition NO_ERROR := 0.
Definition NOT_A_TEENSY := 1.
Definition NOT_CONNECTED := 2.
Definition UNABLE_TO_CONNECT := 3.
Definition INVALID_TRIGGER_LINE := 4.
Definition TEENSY_ERROR := 5.

(** ** The coordinator thread of [Teensy]

    [input] holds the bytes the serial device still has to deliver;
    [effects] records, in order, the frames written with [_write_packet],
    the events put on [self.events] by [handle_event] and the answers put
    on [self._aqueue]. *)

Inductive effect :=
| EWrite (b : list Z)
| EEvent (ev : TeensyLineEvent_t)
| EAnswer (a : answer).

Record state := mkState {
  input : list Z;
  effects : list effect;
  connected : bool
}.

Definition set_input (i : list Z) (st : state) : state :=
  mkState i (effects st) (connected st).
Definition emit (e : effect) (st : state) : state :=
  mkState (input st) (effects st ++ [e]) (connected st).
Definition set_connected (b : bool) (st : state) : state :=
  mkState (input st) (effects st) b.

(** [Blocked]: the thread waits for bytes that never arrive (or spins). *)
Inductive outcome (A : Type) :=
| Done (a : A) (st : state)
| Thrown (e : exn) (st : state)
| Blocked (st : state).
Arguments Done {A} a st.
Arguments Thrown {A} e st.
Arguments Blocked {A} st.

Definition M (A : Type) := state -> outcome A.

Definition ret {A} (a : A) : M A := fun st => Done a st.
Definition throw {A} (e : exn) : M A := fun st => Thrown e st.
Definition bind {A B} (m : M A) (k : A -> M B) : M B :=
  fun st => match m st with
            | Done a st' => k a st'
            | Thrown e st' => Thrown e st'
            | Blocked st' => Blocked st'
            end.
Definition lift {A} (r : result A) : M A :=
  match r with Ok a => ret a | Raise e => throw e end.

Notation "x <- m ;; k" := (bind m (fun x => k))
  (at level 61, m at next level, right associativity).
Notation "m ;;; k" := (bind m (fun _ => k))
  (at level 61, right associativity).

Definition handle_event (ev : TeensyLineEvent_t) : M unit :=
  fun st => Done tt (emit (EEvent ev) st).

Definition _write_packet (pkt : list Z) : M unit :=
  fun st => Done tt (emit (EWrite pkt) st).

Definition put_answer (a : answer) : M unit :=
  fun st => Done tt (emit (EAnswer a) st).

(** [_, _, line, timestamp, logic = pkt.parse_packet()]: a tuple of any
    other shape raises [ValueError]. *)
Definition unpack_event (tup : list pyval) : result (Z * Z * Z) :=
  match tup with
  | [_; _; VInt line; VInt ts; VInt logic] => Ok (line, ts, logic)
  | _ => Raise ValueError
  end.

(** Reading one complete frame with pyserial: [while not tbuf] waits for
    the first byte, then [read(totsize - len(tbuf))] until the buffer holds
    [totsize] bytes.  For [totsize = 0] the inner loop never ends
    ([read] of a negative count returns nothing). *)
Definition take_frame (inp : list Z) : option (list Z * list Z) :=
  match inp with
  | [] => None
  | tot :: rest =>
      if tot =? 0 then None
      else
        let need := (Z.to_nat tot - 1)%nat in
        if Nat.leb need (length rest)
        then Some (tot :: firstn need rest, skipn need rest)
        else None
  end.

(** [_read_packet(handle_event)]: frames that are events are handled and
    the loop goes on; the first other frame is returned. *)
Fixpoint read_fuel (fuel : nat) (handle : bool) : M (list Z) :=
  fun st =>
    match fuel with
    | O => Blocked st
    | S f =>
        match take_frame (input st) with
        | None => Blocked st
        | Some (pkt, rest) =>
            let st1 := set_input rest st in
            if handle then
              match is_event pkt with
              | Raise e => Thrown e st1
              | Ok true =>
                  match parse_packet pkt with
                  | Ok tup =>
                      match unpack_event tup with
                      | Ok (line, ts, logic) =>
                          (handle_event (TeensyLineEvent ts line logic) ;;;
                           read_fuel f handle) st1
                      | Raise e => Thrown e st1
                      end
                  | Raise e => Thrown e st1
                  end
              | Ok false => Done pkt st1
              end
            else Done pkt st1
        end
    end.

Definition _read_packet (handle : bool) : M (list Z) :=
  fun st => read_fuel (S (length (input st))) handle st.

Definition _fetch_event : M unit :=
  package <- _read_packet false ;;
  isev <- lift (is_event package) ;;
  if isev then
    tup <- lift (parse_packet package) ;;
    ev <- lift (unpack_event tup) ;;
    let '(line, ts, logic) := ev in handle_event (TeensyLineEvent ts line logic)
  else throw AssertionError.

Definition _identify : M Z :=
  package <- lift (prepare_identify ZEP_ZEP_TO_TEENSY_UUID) ;;
  _write_packet package ;;;
  package <- _read_packet true ;;
  tup <- lift (parse_packet package) ;;
  match tup with
  | [_; type_; uuid] =>
      if negb (pyval_eqb type_ (VInt IDENTIFY)) then ret NOT_A_TEENSY
      else if negb (pyval_eqb uuid (VBytes ZEP_TEENSY_TO_ZEP_UUID)) then ret NOT_A_TEENSY
      else ret NO_ERROR
  | _ => throw ValueError
  end.

Definition _register_line (line : Z) : M answer :=
  package <- lift (prepare_register line) ;;
  _write_packet package ;;;
  package <- _read_packet true ;;
  tup <- lift (parse_packet package) ;;
  match tup with
  | [_; reply] =>
      if pyval_eqb reply (VInt ACKNOWLEDGE_SUCCES) then ret (AInt NO_ERROR)
      else if pyval_eqb reply (VInt ACKNOWLEDGE_LINE_INVALID)
      then ret (AInt INVALID_TRIGGER_LINE)
      else ret (AInt TEENSY_ERROR)
  | _ => throw ValueError
  end.

Definition _register_single_shot (line : Z) : M answer :=
  package <- lift (prepare_single_shot line) ;;
  _write_packet package ;;;
  package <- _read_packet true ;;
  tup <- lift (parse_packet package) ;;
  match tup with
  | [_; reply; _] =>
      if pyval_eqb reply (VInt ACKNOWLEDGE_SUCCES) then ret (AInt NO_ERROR)
      else if pyval_eqb reply (VInt ACKNOWLEDGE_LINE_INVALID)
      then ret (AInt INVALID_TRIGGER_LINE)
      else ret (AInt TEENSY_ERROR)
  | _ => throw ValueError
  end.

Definition _deregister_input (line : Z) : M answer :=
  package <- lift (prepare_deregister line) ;;
  _write_packet package ;;;
  package <- _read_packet true ;;
  tup <- lift (parse_packet package) ;;
  match tup with
  | [_; reply] =>
      if pyval_eqb reply (VInt ACKNOWLEDGE_SUCCES) then ret (AInt NO_ERROR)
      else throw AssertionError
  | _ => throw ValueError
  end.

Definition _time : M answer :=
  package <- lift prepare_time ;;
  _write_packet package ;;;
  package <- _read_packet true ;;
  tup <- lift (parse_packet package) ;;
  match tup with
  | [_; reply; time] =>
      if pyval_eqb reply (VInt ACKNOWLEDGE_TIME) then ret (ATuple NO_ERROR time)
      else ret ATupleErr
  | _ => throw ValueError
  end.

(** The tasks the public methods put on [self._tqueue]. *)
Inductive task :=
| TRegisterInput (line : Z)
| TRegisterSingleShot (line : Z)
| TDeregisterInput (line : Z)
| TTime.

Definition _handle_task (t : task) : M answer :=
  match t with
  | TRegisterInput l => _register_line l
  | TRegisterSingleShot l => _register_single_shot l
  | TDeregisterInput l => _deregister_input l
  | TTime => _time
  end.

(** [while self._serial.in_waiting: self._fetch_event()] *)
Fixpoint fetch_loop (fuel : nat) : M unit :=
  fun st =>
    match fuel with
    | O => Blocked st
    | S f =>
        match input st with
        | [] => Done tt st
        | _ :: _ => (_fetch_event ;;; fetch_loop f) st
        end
    end.

(** The thread's state after a piece of [run]: still looping, ended by the
    [except Exception] clause (which sets [connected] to [False]), or
    waiting forever inside a read. *)
Inductive coord :=
| CRunning (st : state)
| CDead (st : state)
| CStuck (st : state).

Definition coord_state (c : coord) : state :=
  match c with CRunning s | CDead s | CStuck s => s end.

Definition run_catch (o : outcome unit) : coord :=
  match o with
  | Done _ st => CRunning st
  | Thrown _ st => CDead (set_connected false st)
  | Blocked st => CStuck st
  end.

(** [run] up to the main loop: [self._identify()] (its result is not
    used), then [reply.put(TeensyError.NO_ERROR)]. *)
Definition run_init (st : state) : coord :=
  run_catch ((_identify ;;; put_answer (AInt NO_ERROR)) st).

(** One iteration of the main loop of [run]: a task taken from the task
    queue, or ([q.Empty]) the fetching of events while data is waiting. *)
Definition run_step (t : option task) (st : state) : coord :=
  match t with
  | Some tk => run_catch ((a <- _handle_task tk ;; put_answer a) st)
  | None => run_catch (fetch_loop (S (length (input st))) st)
  end.

(** ** The client side of [Teensy] *)

(** Python truthiness of an answer ([if ans:] / [if reply:]). *)
Definition answer_truthy (a : answer) : bool :=
  match a with
  | AInt z => negb (z =? 0)
  | ATuple _ _ | ATupleErr => true
  end.

Fixpoint first_answer (es : list effect) : option answer :=
  match es with
  | [] => None
  | EAnswer a :: _ => Some a
  | _ :: es' => first_answer es'
  end.

Fixpoint answers (es : list effect) : list answer :=
  match es with
  | [] => []
  | EAnswer a :: es' => a :: answers es'
  | _ :: es' => answers es'
  end.

Fixpoint sink (es : list effect) : list TeensyLineEvent_t :=
  match es with
  | [] => []
  | EEvent ev :: es' => ev :: sink es'
  | _ :: es' => sink es'
  end.

(** [_start_thread]: the thread runs up to its main loop; the client takes
    the first answer with [self._aqueue.get(True, 1)] ([q.Empty] when none
    was put), raises [TeensyError(ans)] when it is truthy and otherwise
    sets [self.connected = True].  The queues are fresh, [connected] is
    [False] before. *)
Definition _start_thread (inp : list Z) : result unit * state :=
  let s := coord_state (run_init (mkState inp [] false)) in
  match first_answer (effects s) with
  | Some a =>
      if answer_truthy a then (Raise (TeensyErrorRaised a), s)
      else (Ok tt, set_connected true s)
  | None => (Raise QueueEmpty, s)
  end.

(** [register_line], [register_single_shot], [deregister_input] after
    [reply = self._aqueue.get()]. *)
Definition client_reply (a : answer) : result unit :=
  if answer_truthy a then Raise (TeensyErrorRaised a) else Ok tt.

(** [time] after [reply, time = self._aqueue.get()]; for the pair
    [(TeensyError(TEENSY_ERROR), None)] the raised [TeensyError] wraps the
    first component, recorded here as the answer itself. *)
Definition client_time (a : answer) : result pyval :=
  match a with
  | AInt _ => Raise TypeError
  | ATuple code v => if code =? 0 then Ok v else Raise (TeensyErrorRaised (AInt code))
  | ATupleErr => Raise (TeensyErrorRaised ATupleErr)
  end.

(** A call of one of the public methods [register_line],
    [register_single_shot], [deregister_input] and [time]: [if not
    self.connected: raise TeensyError(TeensyError.NOT_CONNECTED)], then
    [self._tqueue.put(task)] and [self._aqueue.get()], which waits until
    the thread answers.  The thread takes the task in its next main-loop
    iteration; a thread that has ended, or waits inside a read, never
    answers and the call never returns ([Hangs]).  [connected] is the
    attribute the client and the thread share. *)
Inductive call_result (A : Type) :=
| Returned (r : result A) (c : coord)
| Hangs (c : coord).
Arguments Returned {A} r c.
Arguments Hangs {A} c.

Definition call {A} (t : task) (client : answer -> result A) (c : coord) : call_result A :=
  if negb (connected (coord_state c)) then
    Returned (Raise (TeensyErrorRaised (AInt NOT_CONNECTED))) c
  else
    match c with
    | CRunning s =>
        let c' := run_step (Some t) s in
        match first_answer (skipn (length (effects s)) (effects (coord_state c'))) with
        | Some a => Returned (client a) c'
        | None => Hangs c'
        end
    | CDead _ | CStuck _ => Hangs c
    end.

Definition register_line (line : Z) := call (TRegisterInput line) client_reply.
Definition register_single_shot (line : Z) := call (TRegisterSingleShot line) client_reply.
Definition deregister_input (line : Z) := call (TDeregisterInput line) client_reply.
Definition time := call TTime client_time.

(** ** [TeensyError.__str__] *)

Definition _errdict (k : Z) : option string :=
  if k =? NOT_A_TEENSY then Some "Connected to something that is not a Teensy"%string
  else if k =? NOT_CONNECTED then Some "Operation requires a valid connection"%string
  else if k =? UNABLE_TO_CONNECT then Some "Unable to connect"%string
  else if k =? INVALID_TRIGGER_LINE then Some "Invalid trigger line"%string
  else if k =? TEENSY_ERROR then Some "Unspecified Teensy error."%string
  else None.

(** [str(TeensyError(int_error, extra))].  An [AInt] error is an int key
    of [_errdict]; the other answers stand for the tuple, or the
    [TeensyError] object of [_time]'s else branch, that a client passes
    as [int_error], none of which is a key of the dict ([KeyError]).
    [extra] is [None] or a [str], truthy when non-empty. *)
Definition TeensyError_str (int_error : answer) (extra : option string) : result string :=
  match int_error with
  | AInt k =>
      match _errdict k with
      | Some msg =>
          match extra with
          | Some x =>
              if (String.length x =? 0)%nat then Ok ("TeensyError: " ++ msg)%string
              else Ok ("TeensyError: " ++ msg ++ ", Extra info: " ++ x)%string
          | None => Ok ("TeensyError: " ++ msg)%string
          end
      | None => Raise KeyError
      end
  | ATuple _ _ | ATupleErr => Raise KeyError
  end.

(** ** [src/Teensy.py], the older copy of the module *)

Module Teensy_legacy.

(** Its [prepare_single_shot] packs the header only, without [line]. *)
Definition prepare_single_shot (line : Z) : result (list Z) :=
  pack _REGISTER_SINGLE_SHOT [VInt (_HDR_SZ + 1); VInt REGISTER_SINGLE_SHOT].

End Teensy_legacy.

(** The bytes of an [EventTrigger] frame as laid out by [_EVENT_TRIGGER]
    (["<BBBQB"]) for line [l], timestamp [t] and logic level [x]. *)
Definition event_wire (e : Z * Z * Z) : list Z :=
  let '(l, t, x) := e in [12; EVENT_TRIGGER; l] ++ le_bytes 8 t ++ [x].

Definition valid_event (e : Z * Z * Z) : bool :=
  let '(l, t, x) := e in
  (0 <=? l) && (l <? 256) && (0 <=? t) && (t <? 2 ^ 64) && (0 <=? x) && (x <? 256).

Definition event_of (e : Z * Z * Z) : TeensyLineEvent_t :=
  let '(l, t, x) := e in TeensyLineEvent t l x.

(** A struct argument list that [pack] accepts for the format. *)
Definition valid_item (f : fmt_item) (v : pyval) : bool :=
  match f, v with
  | FB, VInt z => (0 <=? z) && (z <? 256)
  | FQ, VInt z => (0 <=? z) && (z <? 2 ^ 64)
  | FS n, VBytes b => Nat.eqb (length b) n
  | _, _ => false
  end.

Fixpoint valid_items (fs : list fmt_item) (vs : list pyval) : bool :=
  match fs, vs with
  | [], [] => true
  | f :: fs', v :: vs' => valid_item f v && valid_items fs' vs'
  | _, _ => false
  end.

(** The common shape of the [prepare_*] methods: [struct.pack] of the
    kind's struct with [_HDR_SZ + payload size] and the kind in front. *)
Definition encode (kind : Z) (payload : list pyval) : result (list Z) :=
  match _payload_dict kind with
  | Some (_ :: _ :: pfs) =>
      pack (_HEADER ++ pfs)
        (VInt (_HDR_SZ + Z.of_nat (fmt_size pfs)) :: VInt kind :: payload)
  | _ => Raise KeyError
  end.

Definition payload_fmt (kind : Z) : list fmt_item :=
  match _payload_dict kind with
  | Some (_ :: _ :: pfs) => pfs
  | _ => []
  end.

(** ** Notions used by the statements about the thread *)

(** [L] recorded before a state's own effects. *)
Definition shift_state (L : list effect) (s : state) : state :=
  mkState (input s) (L ++ effects s) (connected s).

Definition shift_outcome {A} (L : list effect) (o : outcome A) : outcome A :=
  match o with
  | Done a s => Done a (shift_state L s)
  | Thrown e s => Thrown e (shift_state L s)
  | Blocked s => Blocked (shift_state L s)
  end.

(** A computation of the thread that never looks at what was recorded
    before it: it only appends effects. *)
Definition log_indep {A} (m : M A) : Prop :=
  forall L s, m (shift_state L s) = shift_outcome L (m s).

Definition level_ok (ev : TeensyLineEvent_t) : Prop :=
  logiclevel ev = LOW \/ logiclevel ev = HIGH.

(** The thread states [connect] and [run] can reach: the start of [run] on
    fresh queues, a main-loop iteration (with a task or without), and more
    bytes arriving from the device. *)
Inductive reachable : coord -> Prop :=
| reach_init inp : reachable (run_init (mkState inp [] false))
| reach_step t s : reachable (CRunning s) -> reachable (run_step t s)
| reach_arrive s bytes :
    reachable (CRunning s) -> reachable (CRunning (set_input (input s ++ bytes) s)).

Definition outcome_state {A} (o : outcome A) : state :=
  match o with Done _ s | Thrown _ s | Blocked s => s end.

(** Every event recorded on [self.events] has a level of [LOW] or [HIGH]. *)
Definition inv_effects (es : list effect) : Prop :=
  forall ev, In ev (sink es) -> level_ok ev.

Definition preserves {A} (m : M A) : Prop :=
  forall s, inv_effects (effects s) -> inv_effects (effects (outcome_state (m s))).

(** Effects that are not answers, and effects that are events. *)
Definition not_answer (e : effect) : bool :=
  match e with EAnswer _ => false | _ => true end.

Definition is_event_effect (e : effect) : bool :=
  match e with EEvent _ => true | _ => false end.

(** A computation that only appends effects satisfying [P]. *)
Definition appends {A} (P : effect -> bool) (m : M A) : Prop :=
  forall s, exists l, effects (outcome_state (m s)) = effects s ++ l /\ Forall (fun e => P e = true) l.

(** What the serial port delivers: bytes. *)
Definition bytes_only (inp : list Z) : Prop := Forall (fun z => 0 <= z < 256) inp.

(** * Proofs *)

(** ** Lists and little-endian integers *)

Lemma firstn_len_app {A} (l r : list A) : firstn (length l) (l ++ r) = l.
Proof. induction l as [|x l IH]; simpl; [reflexivity | now rewrite IH]. Qed.

Lemma skipn_len_app {A} (l r : list A) : skipn (length l) (l ++ r) = r.
Proof. induction l as [|x l IH]; simpl; auto. Qed.

Lemma length_le_bytes n z : length (le_bytes n z) = n.
Proof. revert z; induction n; intros z; simpl; auto. Qed.

Lemma le_value_le_bytes n z :
  0 <= z < 2 ^ (8 * Z.of_nat n) -> le_value (le_bytes n z) = z.
Proof.
  revert z; induction n as [|n IH]; intros z Hz.
  - simpl in *. lia.
  - rewrite Nat2Z.inj_succ in Hz.
    replace (8 * Z.succ (Z.of_nat n)) with (8 * Z.of_nat n + 8) in Hz by lia.
    rewrite Z.pow_add_r in Hz by lia.
    cbn [le_bytes le_value].
    change 255 with (Z.ones 8).
    rewrite Z.land_ones, Z.shiftr_div_pow2 by lia.
    change (2 ^ 8) with 256 in *.
    rewrite IH.
    + rewrite Z.shiftl_mul_pow2 by lia. change (2 ^ 8) with 256.
      pose proof (Z.div_mod z 256 ltac:(lia)). lia.
    + split; [apply Z.div_pos; lia | apply Z.div_lt_upper_bound; lia].
Qed.

(** ** [struct.pack] followed by [struct.unpack] *)

Lemma fmt_size_cons f fs : fmt_size (f :: fs) = (item_size f + fmt_size fs)%nat.
Proof. reflexivity. Qed.

Lemma pack_unpack fs :
  forall vs, valid_items fs vs = true ->
  exists b, pack fs vs = Ok b /\ length b = fmt_size fs /\
            forall r, unpack_items fs (b ++ r) = vs.
Proof.
  induction fs as [|f fs IH]; intros [|v vs] H; cbn [valid_items] in H;
    try discriminate.
  - exists []. cbn. auto.
  - apply andb_true_iff in H as [Hv Hvs].
    destruct (IH vs Hvs) as (b & Hp & Hl & Hu).
    destruct f as [| |n], v as [z|bs]; cbn [valid_item] in Hv; try discriminate.
    + exists ([z] ++ b). cbn [pack pack_item]. rewrite Hv, Hp.
      split; [reflexivity|].
      split; [rewrite fmt_size_cons; cbn [length app item_size]; lia|].
      intros r. cbn [unpack_items app hd tl]. now rewrite Hu.
    + exists (le_bytes 8 z ++ b). cbn [pack pack_item]. rewrite Hv, Hp.
      split; [reflexivity|].
      split; [rewrite length_app, length_le_bytes;
              rewrite fmt_size_cons; cbn [item_size]; lia|].
      intros r. rewrite <- app_assoc.
      pose proof (firstn_len_app (le_bytes 8 z) (b ++ r)) as E1.
      pose proof (skipn_len_app (le_bytes 8 z) (b ++ r)) as E2.
      rewrite length_le_bytes in E1, E2.
      cbn [unpack_items]. rewrite E1, E2, Hu.
      apply andb_true_iff in Hv as [H1 H2].
      apply Z.leb_le in H1. apply Z.ltb_lt in H2.
      rewrite le_value_le_bytes; [reflexivity|].
      change (8 * Z.of_nat 8) with 64. lia.
    + apply Nat.eqb_eq in Hv. subst n.
      exists (bs ++ b). cbn [pack pack_item].
      rewrite firstn_all, Nat.sub_diag, Hp. cbn [repeat]. rewrite app_nil_r.
      split; [reflexivity|].
      split; [rewrite length_app, fmt_size_cons; cbn [item_size]; lia|].
      intros r. rewrite <- app_assoc. cbn [unpack_items].
      now rewrite firstn_len_app, skipn_len_app, Hu.
Qed.

Lemma encode_parse kind payload :
  _payload_dict kind = Some (FB :: FB :: payload_fmt kind) ->
  0 <= kind < 256 ->
  (fmt_size (payload_fmt kind) <= 253)%nat ->
  valid_items (payload_fmt kind) payload = true ->
  exists b, encode kind payload = Ok b /\
            parse_packet b = Ok (VInt (Z.of_nat (length b)) :: VInt kind :: payload).
Proof.
  intros Hd Hk Hs Hv.
  set (pfs := payload_fmt kind) in *.
  assert (Hval : valid_items (FB :: FB :: pfs)
           (VInt (_HDR_SZ + Z.of_nat (fmt_size pfs)) :: VInt kind :: payload) = true).
  { cbn [valid_items valid_item]. rewrite Hv. unfold _HDR_SZ.
    destruct Hk as [Hk1 Hk2].
    apply Z.leb_le in Hk1. apply Z.ltb_lt in Hk2. rewrite Hk1, Hk2.
    replace (0 <=? 2 + Z.of_nat (fmt_size pfs)) with true by (symmetry; apply Z.leb_le; lia).
    replace (2 + Z.of_nat (fmt_size pfs) <? 256) with true by (symmetry; apply Z.ltb_lt; lia).
    reflexivity. }
  destruct (pack_unpack _ _ Hval) as (b & Hp & Hl & Hu).
  exists b. unfold encode. rewrite Hd. split; [exact Hp|].
  specialize (Hu []). rewrite app_nil_r in Hu.
  assert (Hb : exists x0 x1 b', b = x0 :: x1 :: b').
  { destruct b as [|y0 [|y1 b']]; rewrite !fmt_size_cons in Hl;
      cbn [length item_size] in Hl; [lia | lia | eauto]. }
  destruct Hb as (x0 & x1 & b' & ->).
  change (unpack_items (FB :: FB :: pfs) (x0 :: x1 :: b'))
    with (VInt x0 :: VInt x1 :: unpack_items pfs b') in Hu.
  assert (E0 : x0 = _HDR_SZ + Z.of_nat (fmt_size pfs)) by congruence.
  assert (E1 : x1 = kind) by congruence.
  assert (E2 : unpack_items pfs b' = payload) by congruence.
  subst x1.
  unfold parse_packet, buf_index. cbn [nth_error]. rewrite Hd.
  unfold unpack. rewrite Hl, Nat.eqb_refl.
  change (unpack_items (FB :: FB :: pfs) (x0 :: kind :: b'))
    with (VInt x0 :: VInt kind :: unpack_items pfs b').
  rewrite E2, !fmt_size_cons. cbn [item_size].
  rewrite E0. unfold _HDR_SZ. do 3 f_equal. lia.
Qed.

Lemma uuid_length : length ZEP_TEENSY_TO_ZEP_UUID = 36%nat.
Proof. reflexivity. Qed.

Lemma byte_range_true z : 0 <= z < 256 -> (0 <=? z) && (z <? 256) = true.
Proof. intros [H1 H2]. apply andb_true_iff. split; [apply Z.leb_le | apply Z.ltb_lt]; lia. Qed.

Lemma prepare_line_bytes (pack_fmt : list fmt_item) (k line : Z) :
  pack_fmt = [FB; FB; FB] -> 0 <= k < 256 -> 0 <= line < 256 ->
  pack pack_fmt [VInt 3; VInt k; VInt line] = Ok [3; k; line].
Proof.
  intros -> Hk Hl. cbn [pack pack_item].
  rewrite (byte_range_true k Hk), (byte_range_true line Hl). reflexivity.
Qed.

(** Round trip in [src/pyteensy.py]: for every message kind of [_payload_dict] and every argument list
    that fits the kind's struct, [parse_packet] of the encoded buffer gives
    back the total length, the kind and exactly the payload values; in
    particular [prepare_single_shot n] decodes to [(3, REGISTER_SINGLE_SHOT, n)]. *)
Theorem encode_decode_roundtrip :
  (forall kind payload,
     1 <= kind <= 11 ->
     valid_items (payload_fmt kind) payload = true ->
     exists b, encode kind payload = Ok b /\
               parse_packet b = Ok (VInt (Z.of_nat (length b)) :: VInt kind :: payload)) /\
  (forall n, 0 <= n < 256 ->
     exists b, prepare_single_shot n = Ok b /\
               parse_packet b = Ok [VInt 3; VInt REGISTER_SINGLE_SHOT; VInt n]).
Proof.
  split.
  - intros kind payload Hk Hv.
    assert (Hc : kind = 1 \/ kind = 2 \/ kind = 3 \/ kind = 4 \/ kind = 5 \/
                 kind = 6 \/ kind = 7 \/ kind = 8 \/ kind = 9 \/ kind = 10 \/
                 kind = 11) by lia.
    repeat (destruct Hc as [Hc|Hc];
      [subst kind; apply encode_parse; [reflexivity | lia | vm_compute; lia | exact Hv]|]).
    subst kind; apply encode_parse; [reflexivity | lia | vm_compute; lia | exact Hv].
  - intros n Hn. exists [3; 3; n]. split.
    + apply prepare_line_bytes; [reflexivity | lia | exact Hn].
    + reflexivity.
Qed.

Lemma encode_decode_roundtrip_witness :
  (1 <= IDENTIFY <= 11 /\
   valid_items (payload_fmt IDENTIFY) [VBytes ZEP_TEENSY_TO_ZEP_UUID] = true /\
   exists b, encode IDENTIFY [VBytes ZEP_TEENSY_TO_ZEP_UUID] = Ok b /\
     parse_packet b = Ok (VInt (Z.of_nat (length b)) :: VInt IDENTIFY
                          :: [VBytes ZEP_TEENSY_TO_ZEP_UUID])) /\
  (0 <= 7 < 256 /\ exists b, prepare_single_shot 7 = Ok b /\
     parse_packet b = Ok [VInt 3; VInt REGISTER_SINGLE_SHOT; VInt 7]).
Proof.
  split.
  - split; [unfold IDENTIFY; lia|]. split; [vm_compute; reflexivity|].
    apply (proj1 encode_decode_roundtrip); [unfold IDENTIFY; lia | vm_compute; reflexivity].
  - split; [lia|]. apply (proj2 encode_decode_roundtrip). lia.
Defined.

(** C6 (failing input): a 16-byte identifier is not rejected;
    [prepare_identify] returns a buffer whose first byte (18), the total
    length by the [_TeensyPackage] docstring, differs from its length (38). *)
Lemma prepare_identify_16_bytes_mismatch :
  exists b, prepare_identify (repeat 0 16) = Ok b /\
            hd 0 b = 18 /\ length b = 38%nat /\ hd 0 b <> Z.of_nat (length b).
Proof.
  eexists. split; [vm_compute; reflexivity|]. vm_compute. repeat split; discriminate.
Qed.

(** C6: [prepare_identify] never checks the identifier length and writes
    [_HDR_SZ + len(uuid)] as first byte, not the length of the buffer it
    packs into the fixed [36s] field; for [n <= 253] bytes it returns the 38-byte [_IDENTIFY] buffer
    (identifier cut or zero-padded to 36 bytes) whose first byte is [2 + n],
    and for [n >= 254] the ["B"] header item makes [struct.pack] raise.
    The other [prepare_*] methods, given in-range arguments, produce a
    buffer whose first byte is its own length. *)
Theorem prepare_identify_declared_length :
  (forall uuid, (length uuid <= 253)%nat ->
     exists b, prepare_identify uuid = Ok b /\ length b = 38%nat /\
               hd 0 b = 2 + Z.of_nat (length uuid)) /\
  (forall uuid, (254 <= length uuid)%nat -> prepare_identify uuid = Raise StructError) /\
  (forall line, 0 <= line < 256 ->
     prepare_register line = Ok [3; REGISTER_INPUT; line] /\
     prepare_deregister line = Ok [3; DEREGISTER_INPUT; line] /\
     prepare_single_shot line = Ok [3; REGISTER_SINGLE_SHOT; line]) /\
  prepare_time = Ok [2; TIME] /\
  (forall t, 0 <= t < 2 ^ 64 ->
     exists b, prepare_set_time t = Ok b /\ length b = 10%nat /\ hd 0 b = 10).
Proof.
  split; [|split; [|split; [|split]]].
  - intros uuid Hn.
    unfold prepare_identify, _IDENTIFY, _HEADER, _UUID. rewrite uuid_length.
    cbn [app pack pack_item].
    rewrite byte_range_true by (unfold _HDR_SZ; lia).
    eexists. split; [reflexivity|]. split.
    + rewrite !length_app, length_firstn, repeat_length. cbn [length]. lia.
    + reflexivity.
  - intros uuid Hn.
    unfold prepare_identify, _IDENTIFY, _HEADER, _UUID.
    cbn [app pack pack_item].
    replace ((0 <=? _HDR_SZ + Z.of_nat (length uuid)) &&
             (_HDR_SZ + Z.of_nat (length uuid) <? 256)) with false.
    + reflexivity.
    + symmetry. apply andb_false_iff. right. apply Z.ltb_ge. unfold _HDR_SZ. lia.
  - intros line Hl. unfold prepare_register, prepare_deregister, prepare_single_shot.
    repeat split; apply prepare_line_bytes; try reflexivity; try exact Hl;
      unfold REGISTER_INPUT, DEREGISTER_INPUT, REGISTER_SINGLE_SHOT; lia.
  - reflexivity.
  - intros t Ht. unfold prepare_set_time, _TIME_SET, _HEADER, _UINT64.
    cbn [app pack pack_item].
    replace ((0 <=? t) && (t <? 2 ^ 64)) with true
      by (symmetry; apply andb_true_iff; split; [apply Z.leb_le | apply Z.ltb_lt]; lia).
    eexists. split; [reflexivity|]. split; [|reflexivity].
    rewrite !length_app, length_le_bytes. reflexivity.
Qed.

Lemma prepare_identify_declared_length_witness :
  ((length (repeat 0 16) <= 253)%nat /\
   exists b, prepare_identify (repeat 0 16) = Ok b /\ length b = 38%nat /\
             hd 0 b = 2 + Z.of_nat (length (repeat 0 16))) /\
  ((254 <= length (repeat 0 300))%nat /\ prepare_identify (repeat 0 300) = Raise StructError) /\
  (0 <= 5 < 256 /\ prepare_register 5 = Ok [3; REGISTER_INPUT; 5]) /\
  (0 <= 100 < 2 ^ 64 /\ exists b, prepare_set_time 100 = Ok b /\ length b = 10%nat /\ hd 0 b = 10).
Proof.
  destruct prepare_identify_declared_length as (H1 & H2 & H3 & _ & H5).
  split; [split; [simpl; lia | apply H1; simpl; lia]|].
  split; [split; [rewrite repeat_length; lia | apply H2; rewrite repeat_length; lia]|].
  split; [split; [lia | apply (H3 5); lia]|].
  split; [lia | apply H5; lia].
Defined.

(** C9 *)
(** C9: [is_event] on a buffer of fewer than two bytes, the empty default
    buffer included, reaches [return false] and raises [NameError]. *)
Theorem is_event_short_buffer_raises :
  forall buf, (length buf < 2)%nat -> is_event buf = Raise NameError.
Proof.
  intros buf H. destruct buf as [|x [|y r]]; cbn [length] in H; try lia; reflexivity.
Qed.

Lemma is_event_short_buffer_raises_witness :
  (length ([] : list Z) < 2)%nat /\ is_event [] = Raise NameError.
Proof. split; [simpl; lia | apply is_event_short_buffer_raises; simpl; lia]. Defined.

(** ** Reading frames *)

Lemma take_frame_shorter inp pkt rest :
  take_frame inp = Some (pkt, rest) -> (length rest < length inp)%nat.
Proof.
  destruct inp as [|tot r]; cbn [take_frame]; [discriminate|].
  destruct (tot =? 0); [discriminate|].
  destruct (Nat.leb _ _); [|discriminate].
  intros H. injection H as <- <-. rewrite length_skipn. cbn [length]. lia.
Qed.

Lemma read_fuel_irrel n :
  forall m h st, (length (input st) < n)%nat -> (length (input st) < m)%nat ->
  read_fuel n h st = read_fuel m h st.
Proof.
  induction n as [|n IH]; intros [|m] h st Hn Hm; try lia.
  cbn [read_fuel].
  destruct (take_frame (input st)) as [[pkt rest]|] eqn:Ht; [|reflexivity].
  apply take_frame_shorter in Ht.
  destruct h; [|reflexivity].
  destruct (is_event pkt) as [[|]|e]; try reflexivity.
  destruct (parse_packet pkt) as [tup|e]; try reflexivity.
  destruct (unpack_event tup) as [[[l ts] x]|e]; try reflexivity.
  unfold bind, handle_event. cbv beta iota.
  apply IH; cbn [input emit set_input]; lia.
Qed.

(** ** Computations that only append effects *)

Lemma ret_indep {A} (a : A) : log_indep (ret a).
Proof. intros L s. reflexivity. Qed.

Lemma throw_indep {A} (e : exn) : log_indep (@throw A e).
Proof. intros L s. reflexivity. Qed.

Lemma lift_indep {A} (r : result A) : log_indep (lift r).
Proof. destruct r; intros L s; reflexivity. Qed.

Lemma emit_shift e L s : emit e (shift_state L s) = shift_state L (emit e s).
Proof. unfold emit, shift_state. cbn. now rewrite app_assoc. Qed.

Lemma handle_event_indep ev : log_indep (handle_event ev).
Proof. intros L s. unfold handle_event. cbn [shift_outcome]. now rewrite emit_shift. Qed.

Lemma write_indep pkt : log_indep (_write_packet pkt).
Proof. intros L s. unfold _write_packet. cbn [shift_outcome]. now rewrite emit_shift. Qed.

Lemma put_answer_indep a : log_indep (put_answer a).
Proof. intros L s. unfold put_answer. cbn [shift_outcome]. now rewrite emit_shift. Qed.

Lemma bind_indep {A B} (m : M A) (k : A -> M B) :
  log_indep m -> (forall a, log_indep (k a)) -> log_indep (bind m k).
Proof.
  intros Hm Hk L s. unfold bind. rewrite Hm.
  destruct (m s) as [a s'|e s'|s']; cbn [shift_outcome]; [apply Hk | reflexivity | reflexivity].
Qed.

Lemma read_fuel_indep n h : log_indep (read_fuel n h).
Proof.
  induction n as [|n IH]; intros L s; [reflexivity|].
  cbn [read_fuel]. change (input (shift_state L s)) with (input s).
  destruct (take_frame (input s)) as [[pkt rest]|]; [|reflexivity].
  change (set_input rest (shift_state L s)) with (shift_state L (set_input rest s)).
  destruct h; [|reflexivity].
  destruct (is_event pkt) as [[|]|e]; try reflexivity.
  destruct (parse_packet pkt) as [tup|e]; try reflexivity.
  destruct (unpack_event tup) as [[[l ts] x]|e]; try reflexivity.
  exact (bind_indep _ _ (handle_event_indep _) (fun _ => IH) L (set_input rest s)).
Qed.

Lemma read_packet_indep h : log_indep (_read_packet h).
Proof.
  intros L s. unfold _read_packet.
  change (input (shift_state L s)) with (input s). apply read_fuel_indep.
Qed.

Ltac indep_tac :=
  repeat first
    [ apply bind_indep; [|intros ?; cbv beta]
    | apply ret_indep | apply throw_indep | apply lift_indep
    | apply handle_event_indep | apply write_indep | apply put_answer_indep
    | apply read_packet_indep
    | match goal with |- log_indep (match ?x with _ => _ end) => destruct x end ].

(** ** Event frames on the wire *)

Lemma valid_event_spec l t x :
  valid_event (l, t, x) = true -> 0 <= l < 256 /\ 0 <= t < 2 ^ 64 /\ 0 <= x < 256.
Proof.
  unfold valid_event. intros H.
  repeat rewrite andb_true_iff in H.
  destruct H as [[[[[H1 H2] H3] H4] H5] H6].
  apply Z.leb_le in H1, H3, H5. apply Z.ltb_lt in H2, H4, H6. lia.
Qed.

Lemma length_event_wire e : length (event_wire e) = 12%nat.
Proof. destruct e as [[l t] x]. reflexivity. Qed.

Lemma take_frame_event e r : take_frame (event_wire e ++ r) = Some (event_wire e, r).
Proof. destruct e as [[l t] x]. reflexivity. Qed.

Lemma is_event_wire e : is_event (event_wire e) = Ok true.
Proof. destruct e as [[l t] x]. reflexivity. Qed.

Lemma parse_event_wire l t x :
  valid_event (l, t, x) = true ->
  parse_packet (event_wire (l, t, x)) = Ok [VInt 12; VInt 11; VInt l; VInt t; VInt x].
Proof.
  intros H. apply valid_event_spec in H.
  transitivity (@Ok (list pyval)
                  [VInt 12; VInt 11; VInt l; VInt (le_value (le_bytes 8 t)); VInt x]).
  - reflexivity.
  - rewrite le_value_le_bytes; [reflexivity|]. change (8 * Z.of_nat 8) with 64. lia.
Qed.

Lemma read_events evs :
  forall rest L c, forallb valid_event evs = true ->
  _read_packet true (mkState (concat (map event_wire evs) ++ rest) L c) =
  _read_packet true (mkState rest (L ++ map (fun e => EEvent (event_of e)) evs) c).
Proof.
  induction evs as [|e evs IH]; intros rest L c Hv.
  - cbn [map concat app]. now rewrite app_nil_r.
  - cbn [forallb] in Hv. apply andb_true_iff in Hv as [He Hv].
    destruct e as [[l t] x].
    cbn [map concat]. rewrite <- app_assoc.
    transitivity (_read_packet true
      (mkState (concat (map event_wire evs) ++ rest)
               (L ++ [EEvent (TeensyLineEvent t l x)]) c)).
    + unfold _read_packet. cbn [read_fuel input].
      rewrite take_frame_event, is_event_wire, (parse_event_wire l t x He).
      cbn [unpack_event]. unfold bind, handle_event. cbv beta iota.
      rewrite (read_fuel_irrel _ (S (length (concat (map event_wire evs) ++ rest))));
        [reflexivity | cbn [input emit set_input];
                       rewrite ?length_app, ?length_event_wire; lia ..].
    + rewrite IH by exact Hv. rewrite <- app_assoc. reflexivity.
Qed.

(** ** Stepping through the thread *)

Lemma bind_lift_ok {A B} (a : A) (k : A -> M B) st : bind (lift (Ok a)) k st = k a st.
Proof. reflexivity. Qed.

Lemma bind_lift_raise {A B} (e : exn) (k : A -> M B) st :
  bind (lift (Raise e)) k st = Thrown e st.
Proof. reflexivity. Qed.

Lemma bind_write {B} pkt (k : unit -> M B) st :
  bind (_write_packet pkt) k st = k tt (emit (EWrite pkt) st).
Proof. reflexivity. Qed.

Lemma bind_done {A B} (m : M A) (k : A -> M B) st a st' :
  m st = Done a st' -> bind m k st = k a st'.
Proof. intros E. unfold bind. now rewrite E. Qed.

Lemma bind_same_first {A B} (m : M A) (k : A -> M B) s1 s2 :
  m s1 = m s2 -> bind m k s1 = bind m k s2.
Proof. intros E. unfold bind. now rewrite E. Qed.

Lemma emit_mk e i L c : emit e (mkState i L c) = mkState i (L ++ [e]) c.
Proof. reflexivity. Qed.

Lemma mk_shift i L c : mkState i L c = shift_state L (mkState i [] c).
Proof. unfold shift_state. cbn. now rewrite app_nil_r. Qed.

Lemma take_frame_app tot body rest :
  tot = Z.of_nat (S (length body)) ->
  take_frame ((tot :: body) ++ rest) = Some (tot :: body, rest).
Proof.
  intros ->. cbn [app take_frame].
  replace (Z.of_nat (S (length body)) =? 0) with false by (symmetry; apply Z.eqb_neq; lia).
  rewrite Nat2Z.id. cbn [Nat.sub]. rewrite Nat.sub_0_r.
  replace (Nat.leb (length body) (length (body ++ rest))) with true
    by (symmetry; apply Nat.leb_le; rewrite length_app; lia).
  now rewrite firstn_len_app, skipn_len_app.
Qed.

Lemma read_packet_nonevent h st pkt rest :
  take_frame (input st) = Some (pkt, rest) -> is_event pkt = Ok false ->
  _read_packet h st = Done pkt (set_input rest st).
Proof.
  intros Ht He. unfold _read_packet. cbn [read_fuel]. rewrite Ht.
  destruct h; [rewrite He|]; reflexivity.
Qed.

Lemma is_event_kind tot kind payload :
  is_event (tot :: kind :: payload) = Ok (_events kind).
Proof. reflexivity. Qed.

Lemma handle_task_shape t :
  exists prep k,
    (forall st, _handle_task t st =
       (pkt <- lift prep ;; _write_packet pkt ;;; p <- _read_packet true ;; k p) st) /\
    (forall p, log_indep (k p)).
Proof.
  destruct t as [l|l|l|];
    (eexists; eexists; split; [intros st; reflexivity | intros p; cbv beta; indep_tac]).
Qed.

(** C7: while a command is pending, [EventTrigger] frames that arrive
    before its reply are put on [self.events] in wire order, after the
    command frame is written and before the answer is put on the answer
    queue; the answer is the one the reply alone produces. *)
Theorem events_pushed_before_reply :
  forall t evs rest L c rest' c' cmd a,
    forallb valid_event evs = true ->
    run_step (Some t) (mkState rest L c) =
      CRunning (mkState rest' (L ++ [EWrite cmd; EAnswer a]) c') ->
    run_step (Some t) (mkState (concat (map event_wire evs) ++ rest) L c) =
      CRunning (mkState rest'
                  (L ++ [EWrite cmd] ++ map (fun e => EEvent (event_of e)) evs
                     ++ [EAnswer a]) c').
Proof.
  intros t evs rest L c rest' c' cmd a Hv H.
  destruct (handle_task_shape t) as (prep & k & Ht & Hk).
  unfold run_step in *.
  set (R := (a0 <- (p0 <- _read_packet true ;; k p0) ;; put_answer a0) : M unit).
  assert (HR : log_indep (R)).
  { unfold R. apply bind_indep; [apply bind_indep; [apply read_packet_indep | exact Hk]|].
    intros; apply put_answer_indep. }
  assert (Hstep : forall st,
    (a0 <- _handle_task t ;; put_answer a0) st =
    match prep with
    | Ok pkt => R (emit (EWrite pkt) st)
    | Raise e => Thrown e st
    end).
  { intros st. unfold bind at 1. rewrite Ht. destruct prep; reflexivity. }
  rewrite !Hstep in *.
  destruct prep as [pkt|e]; [|discriminate H].
  rewrite !emit_mk in *.
  assert (Hr : R (mkState (concat (map event_wire evs) ++ rest) (L ++ [EWrite pkt]) c) =
               R (mkState rest ((L ++ [EWrite pkt]) ++
                                   map (fun e => EEvent (event_of e)) evs) c)).
  { unfold R. apply bind_same_first, bind_same_first, read_events. exact Hv. }
  rewrite Hr.
  rewrite (mk_shift rest (L ++ [EWrite pkt]) c), HR in H.
  rewrite (mk_shift rest ((L ++ [EWrite pkt]) ++ _) c), HR.
  destruct (R (mkState rest [] c)) as [u s'|e s'|s']; cbn [shift_outcome run_catch] in H |- *;
    try discriminate H.
  apply (f_equal coord_state) in H. cbn [coord_state] in H. rename H into Hs.
  destruct s' as [i' es' c'']. unfold shift_state in Hs |- *. cbn [input effects connected] in Hs |- *.
  injection Hs as Hi He Hc. subst i' c''.
  rewrite <- app_assoc in He. apply app_inv_head in He.
  cbn [app] in He. injection He as Hp Hes. subst pkt es'.
  now rewrite <- !app_assoc.
Qed.

Lemma events_pushed_before_reply_witness :
  forallb valid_event [(3, 42, 1)] = true /\
  run_step (Some (TRegisterInput 5)) (mkState [2; ACKNOWLEDGE_SUCCES] [] true) =
    CRunning (mkState [] ([] ++ [EWrite [3; 2; 5]; EAnswer (AInt NO_ERROR)]) true) /\
  run_step (Some (TRegisterInput 5))
    (mkState (concat (map event_wire [(3, 42, 1)]) ++ [2; ACKNOWLEDGE_SUCCES]) [] true) =
    CRunning (mkState []
      ([] ++ [EWrite [3; 2; 5]] ++ map (fun e => EEvent (event_of e)) [(3, 42, 1)]
          ++ [EAnswer (AInt NO_ERROR)]) true).
Proof.
  assert (H1 : forallb valid_event [(3, 42, 1)] = true) by (vm_compute; reflexivity).
  assert (H2 : run_step (Some (TRegisterInput 5)) (mkState [2; ACKNOWLEDGE_SUCCES] [] true) =
    CRunning (mkState [] ([] ++ [EWrite [3; 2; 5]; EAnswer (AInt NO_ERROR)]) true))
    by (vm_compute; reflexivity).
  split; [exact H1|]. split; [exact H2|].
  exact (events_pushed_before_reply _ _ _ _ _ _ _ _ _ H1 H2).
Defined.

Lemma bind_thrown {A B} (m : M A) (k : A -> M B) st e st' :
  m st = Thrown e st' -> bind m k st = Thrown e st'.
Proof. intros E. unfold bind. now rewrite E. Qed.

Lemma fetch_loop_cons n st x xs :
  input st = x :: xs -> fetch_loop (S n) st = (_fetch_event ;;; fetch_loop n) st.
Proof. intros E. cbn [fetch_loop]. now rewrite E. Qed.

Lemma fetch_event_nonevent st pkt rest :
  take_frame (input st) = Some (pkt, rest) -> is_event pkt = Ok false ->
  _fetch_event st = Thrown AssertionError (set_input rest st).
Proof.
  intros Ht He. unfold _fetch_event.
  rewrite (bind_done _ _ _ _ _ (read_packet_nonevent false st pkt rest Ht He)).
  rewrite He, bind_lift_ok. reflexivity.
Qed.

Lemma prepare_register_ok line :
  0 <= line < 256 -> prepare_register line = Ok [3; REGISTER_INPUT; line].
Proof. intros H. apply prepare_line_bytes; [reflexivity | unfold REGISTER_INPUT; lia | exact H]. Qed.

Lemma prepare_deregister_ok line :
  0 <= line < 256 -> prepare_deregister line = Ok [3; DEREGISTER_INPUT; line].
Proof. intros H. apply prepare_line_bytes; [reflexivity | unfold DEREGISTER_INPUT; lia | exact H]. Qed.

(** C8: [time()] sends a [Time] frame and, when the Teensy answers with
    an [AcknowledgeTime] frame carrying the 64-bit timestamp [t], the
    thread answers [(NO_ERROR, t)] and [time()] returns exactly [t]. *)
Theorem query_time_returns_timestamp :
  forall t rest L c,
    0 <= t < 2 ^ 64 ->
    run_step (Some TTime)
      (mkState ([10; ACKNOWLEDGE_TIME] ++ le_bytes 8 t ++ rest) L c) =
      CRunning (mkState rest
        (L ++ [EWrite [2; TIME]; EAnswer (ATuple NO_ERROR (VInt t))]) c) /\
    client_time (ATuple NO_ERROR (VInt t)) = Ok (VInt t).
Proof.
  intros t rest L c Ht. split; [|reflexivity].
  transitivity (CRunning (mkState rest
    ((L ++ [EWrite [2; TIME]]) ++ [EAnswer (ATuple NO_ERROR (VInt (le_value (le_bytes 8 t))))]) c));
    [reflexivity|].
  rewrite <- app_assoc, le_value_le_bytes by lia. reflexivity.
Qed.

Lemma query_time_returns_timestamp_witness :
  0 <= 100 < 2 ^ 64 /\
  run_step (Some TTime)
    (mkState ([10; ACKNOWLEDGE_TIME] ++ le_bytes 8 100 ++ []) [] true) =
    CRunning (mkState [] ([] ++ [EWrite [2; TIME]; EAnswer (ATuple NO_ERROR (VInt 100))]) true) /\
  client_time (ATuple NO_ERROR (VInt 100)) = Ok (VInt 100).
Proof.
  assert (H : 0 <= 100 < 2 ^ 64) by lia.
  split; [exact H | exact (query_time_returns_timestamp 100 [] [] true H)].
Defined.

(** C4 (counterexample): for [register_line], an [AcknowledgeFailure]
    reply and an unexpected [Time] reply give the same answer,
    [TEENSY_ERROR]; there is no separate rejected-by-peripheral answer. *)
Lemma ack_failure_same_as_unexpected :
  answers (effects (coord_state (run_step (Some (TRegisterInput 5))
                                   (mkState [2; ACKNOWLEDGE_FAILURE] [] true)))) =
    [AInt TEENSY_ERROR] /\
  answers (effects (coord_state (run_step (Some (TRegisterInput 5))
                                   (mkState [2; TIME] [] true)))) =
    [AInt TEENSY_ERROR].
Proof. split; vm_compute; reflexivity. Qed.


(** C5 (counterexample): a [deregister_input(5)] answered with
    [AcknowledgeLineInvalid] ends the thread with [connected] false and
    no answer put on the answer queue. *)
Lemma deregister_line_invalid_kills_thread :
  run_step (Some (TDeregisterInput 5)) (mkState [2; ACKNOWLEDGE_LINE_INVALID] [] true) =
    CDead (mkState [] [EWrite [3; DEREGISTER_INPUT; 5]] false).
Proof. vm_compute. reflexivity. Qed.

(** C2 (counterexample): an [AcknowledgeSuccess] frame arriving while no
    command is pending ends the thread with [connected] false. *)
Lemma unsolicited_ack_kills_thread :
  run_step None (mkState [2; ACKNOWLEDGE_SUCCES] [] true) = CDead (mkState [] [] false).
Proof. vm_compute. reflexivity. Qed.

(** C2: while no command is pending, a complete frame of any kind other
    than [EventTrigger] makes the [assert package.is_event()] of
    [_fetch_event] fail: [run] ends with [connected] false, the frame is
    consumed and nothing is recorded. *)
Theorem unsolicited_frame_kills_thread :
  forall kind payload rest L c,
    kind <> EVENT_TRIGGER ->
    (length payload <= 253)%nat ->
    run_step None (mkState (((2 + Z.of_nat (length payload)) :: kind :: payload) ++ rest) L c) =
      CDead (mkState rest L false).
Proof.
  intros kind payload rest L c Hk Hn. unfold run_step.
  assert (Htf : take_frame (((2 + Z.of_nat (length payload)) :: kind :: payload) ++ rest) =
                Some ((2 + Z.of_nat (length payload)) :: kind :: payload, rest))
    by (apply take_frame_app; cbn [length]; lia).
  assert (Hev : is_event ((2 + Z.of_nat (length payload)) :: kind :: payload) = Ok false).
  { rewrite is_event_kind. unfold _events. f_equal. now apply Z.eqb_neq. }
  erewrite fetch_loop_cons by reflexivity.
  rewrite (bind_thrown _ _ _ _ _
    (fetch_event_nonevent (mkState (((2 + Z.of_nat (length payload)) :: kind :: payload) ++ rest) L c)
       _ rest Htf Hev)).
  reflexivity.
Qed.

Lemma unsolicited_frame_kills_thread_witness :
  ACKNOWLEDGE_SUCCES <> EVENT_TRIGGER /\ (length (@nil Z) <= 253)%nat /\
  run_step None (mkState (((2 + Z.of_nat (length (@nil Z))) :: ACKNOWLEDGE_SUCCES :: []) ++ [])
                         [] true) =
    CDead (mkState [] [] false).
Proof.
  assert (H1 : ACKNOWLEDGE_SUCCES <> EVENT_TRIGGER) by (unfold ACKNOWLEDGE_SUCCES, EVENT_TRIGGER; lia).
  assert (H2 : (length (@nil Z) <= 253)%nat) by (cbn; lia).
  split; [exact H1 | split; [exact H2|]].
  exact (unsolicited_frame_kills_thread _ [] [] [] true H1 H2).
Defined.

(** ** The handshake *)

Lemma prepare_identify_zep :
  prepare_identify ZEP_ZEP_TO_TEENSY_UUID = Ok (38 :: IDENTIFY :: ZEP_ZEP_TO_TEENSY_UUID).
Proof. vm_compute. reflexivity. Qed.

Lemma parse_identify_reply u :
  length u = 36%nat -> parse_packet (38 :: IDENTIFY :: u) = Ok [VInt 38; VInt IDENTIFY; VBytes u].
Proof.
  intros Hu. unfold parse_packet.
  change (buf_index (38 :: IDENTIFY :: u) 1) with (@Ok Z IDENTIFY). cbv beta iota.
  replace (_payload_dict IDENTIFY) with (Some _IDENTIFY) by reflexivity.
  unfold unpack. cbn [length]. rewrite Hu.
  replace (Nat.eqb 38 (fmt_size _IDENTIFY)) with true by reflexivity.
  change (unpack_items _IDENTIFY (38 :: IDENTIFY :: u))
    with [VInt 38; VInt IDENTIFY; VBytes (firstn 36 u)].
  rewrite firstn_all2 by lia. reflexivity.
Qed.

(** ** Levels of recorded events *)

Lemma sink_app a b : sink (a ++ b) = sink a ++ sink b.
Proof.
  induction a as [|e a IH]; [reflexivity|].
  destruct e; cbn [app sink]; rewrite IH; reflexivity.
Qed.

Lemma inv_effects_snoc es e :
  inv_effects es -> (forall ev, e = EEvent ev -> level_ok ev) -> inv_effects (es ++ [e]).
Proof.
  unfold inv_effects. intros H He ev Hin.
  rewrite sink_app in Hin. apply in_app_or in Hin as [Hin|Hin]; [auto|].
  destruct e; cbn [sink] in Hin; try contradiction.
  destruct Hin as [<-|[]]. auto.
Qed.

Lemma TeensyLineEvent_level t l x : level_ok (TeensyLineEvent t l x).
Proof. unfold level_ok, TeensyLineEvent. cbn [logiclevel]. destruct (x =? 0); auto. Qed.

Lemma emit_pres e :
  (forall ev, e = EEvent ev -> level_ok ev) -> preserves (fun st => Done tt (emit e st)).
Proof. intros He s Hs. apply inv_effects_snoc; assumption. Qed.

Lemma ret_pres {A} (a : A) : preserves (ret a).
Proof. intros s Hs. exact Hs. Qed.

Lemma throw_pres {A} (e : exn) : preserves (@throw A e).
Proof. intros s Hs. exact Hs. Qed.

Lemma lift_pres {A} (r : result A) : preserves (lift r).
Proof. destruct r; [apply ret_pres | apply throw_pres]. Qed.

Lemma write_pres pkt : preserves (_write_packet pkt).
Proof. apply emit_pres. discriminate. Qed.

Lemma put_answer_pres a : preserves (put_answer a).
Proof. apply emit_pres. discriminate. Qed.

Lemma handle_event_line_pres t l x : preserves (handle_event (TeensyLineEvent t l x)).
Proof. apply emit_pres. intros ev [= <-]. apply TeensyLineEvent_level. Qed.

Lemma bind_pres {A B} (m : M A) (k : A -> M B) :
  preserves m -> (forall a, preserves (k a)) -> preserves (bind m k).
Proof.
  intros Hm Hk s Hs. specialize (Hm s Hs). unfold bind.
  destruct (m s) as [a s'|e s'|s']; cbn [outcome_state] in *; auto.
  apply Hk. exact Hm.
Qed.

Lemma read_fuel_pres n h : preserves (read_fuel n h).
Proof.
  induction n as [|n IH]; intros s Hs; cbn [read_fuel]; [exact Hs|].
  destruct (take_frame (input s)) as [[pkt rest]|]; [|exact Hs].
  destruct h; [|exact Hs].
  destruct (is_event pkt) as [[|]|e]; [|exact Hs|exact Hs].
  destruct (parse_packet pkt) as [tup|e]; [|exact Hs].
  destruct (unpack_event tup) as [[[l t] x]|e]; [|exact Hs].
  exact (bind_pres _ _ (handle_event_line_pres t l x) (fun _ => IH) (set_input rest s) Hs).
Qed.

Lemma read_packet_pres h : preserves (_read_packet h).
Proof. intros s Hs. exact (read_fuel_pres _ h s Hs). Qed.

Ltac pres_tac :=
  repeat first
    [ apply bind_pres; [|intros ?; cbv beta]
    | apply ret_pres | apply throw_pres | apply lift_pres
    | apply write_pres | apply put_answer_pres | apply read_packet_pres
    | apply handle_event_line_pres
    | match goal with |- preserves (match ?x with _ => _ end) => destruct x end ].

Lemma fetch_event_pres : preserves _fetch_event.
Proof.
  unfold _fetch_event. pres_tac.
Qed.

Lemma fetch_loop_pres n : preserves (fetch_loop n).
Proof.
  induction n as [|n IH]; intros s Hs; cbn [fetch_loop]; [exact Hs|].
  destruct (input s); [exact Hs|].
  exact (bind_pres _ _ fetch_event_pres (fun _ => IH) s Hs).
Qed.

Lemma handle_task_pres t : preserves (_handle_task t).
Proof.
  destruct t; unfold _handle_task, _register_line, _register_single_shot,
    _deregister_input, _time; pres_tac.
Qed.

Lemma run_catch_effects o : effects (coord_state (run_catch o)) = effects (outcome_state o).
Proof. destruct o; reflexivity. Qed.

Lemma run_step_pres t s :
  inv_effects (effects s) -> inv_effects (effects (coord_state (run_step t s))).
Proof.
  intros Hs. unfold run_step. destruct t as [tk|]; rewrite run_catch_effects.
  - exact (bind_pres _ _ (handle_task_pres tk) put_answer_pres s Hs).
  - exact (fetch_loop_pres _ s Hs).
Qed.

Lemma run_init_pres s :
  inv_effects (effects s) -> inv_effects (effects (coord_state (run_init s))).
Proof.
  intros Hs. unfold run_init. rewrite run_catch_effects.
  assert (H : preserves (_identify ;;; put_answer (AInt NO_ERROR)))
    by (unfold _identify; pres_tac).
  exact (H s Hs).
Qed.

(** C1: when the Teensy answers the handshake with an [Identify] frame
    whose 36-byte identifier differs from the expected one, [_identify]
    returns [NOT_A_TEENSY], but [run] drops that value and puts
    [NO_ERROR] on the answer queue, so [_start_thread] succeeds and sets
    [connected] to true. *)
Theorem identify_mismatch_still_connects :
  forall u rest,
    length u = 36%nat ->
    bytes_eqb u ZEP_TEENSY_TO_ZEP_UUID = false ->
    _identify (mkState ((38 :: IDENTIFY :: u) ++ rest) [] false) =
      Done NOT_A_TEENSY
        (mkState rest [EWrite (38 :: IDENTIFY :: ZEP_ZEP_TO_TEENSY_UUID)] false) /\
    _start_thread ((38 :: IDENTIFY :: u) ++ rest) =
      (Ok tt, mkState rest [EWrite (38 :: IDENTIFY :: ZEP_ZEP_TO_TEENSY_UUID);
                            EAnswer (AInt NO_ERROR)] true).
Proof.
  intros u rest Hu Hne.
  assert (Htf : take_frame ((38 :: IDENTIFY :: u) ++ rest) = Some (38 :: IDENTIFY :: u, rest))
    by (apply take_frame_app; cbn [length]; rewrite Hu; reflexivity).
  assert (Hev : is_event (38 :: IDENTIFY :: u) = Ok false) by reflexivity.
  assert (Hid : _identify (mkState ((38 :: IDENTIFY :: u) ++ rest) [] false) =
    Done NOT_A_TEENSY (mkState rest [EWrite (38 :: IDENTIFY :: ZEP_ZEP_TO_TEENSY_UUID)] false)).
  { unfold _identify. rewrite prepare_identify_zep, bind_lift_ok, bind_write.
    rewrite (bind_done _ _ _ _ _
      (read_packet_nonevent true
         (emit (EWrite (38 :: IDENTIFY :: ZEP_ZEP_TO_TEENSY_UUID))
            (mkState ((38 :: IDENTIFY :: u) ++ rest) [] false)) _ rest Htf Hev)).
    rewrite (parse_identify_reply u Hu), bind_lift_ok.
    change (pyval_eqb (VBytes u) (VBytes ZEP_TEENSY_TO_ZEP_UUID))
      with (bytes_eqb u ZEP_TEENSY_TO_ZEP_UUID).
    rewrite Hne. reflexivity. }
  split; [exact Hid|].
  unfold _start_thread, run_init.
  rewrite (bind_done _ _ _ _ _ Hid). reflexivity.
Qed.

Lemma identify_mismatch_still_connects_witness :
  length ZEP_ZEP_TO_TEENSY_UUID = 36%nat /\
  bytes_eqb ZEP_ZEP_TO_TEENSY_UUID ZEP_TEENSY_TO_ZEP_UUID = false /\
  _identify (mkState ((38 :: IDENTIFY :: ZEP_ZEP_TO_TEENSY_UUID) ++ []) [] false) =
    Done NOT_A_TEENSY
      (mkState [] [EWrite (38 :: IDENTIFY :: ZEP_ZEP_TO_TEENSY_UUID)] false) /\
  _start_thread ((38 :: IDENTIFY :: ZEP_ZEP_TO_TEENSY_UUID) ++ []) =
    (Ok tt, mkState [] [EWrite (38 :: IDENTIFY :: ZEP_ZEP_TO_TEENSY_UUID);
                        EAnswer (AInt NO_ERROR)] true).
Proof.
  assert (H1 : length ZEP_ZEP_TO_TEENSY_UUID = 36%nat) by (vm_compute; reflexivity).
  assert (H2 : bytes_eqb ZEP_ZEP_TO_TEENSY_UUID ZEP_TEENSY_TO_ZEP_UUID = false)
    by (vm_compute; reflexivity).
  split; [exact H1 | split; [exact H2|]].
  exact (identify_mismatch_still_connects _ [] H1 H2).
Defined.

(** C10: [TeensyLineEvent] maps a raw logic byte of zero to [LOW] and
    any other byte to [HIGH], and every event recorded on [self.events]
    in any state the thread can reach has level [LOW] or [HIGH]. *)
Theorem event_levels_normalized :
  (forall t l x, logiclevel (TeensyLineEvent t l x) = if x =? 0 then LOW else HIGH) /\
  (forall c, reachable c ->
     forall ev, In ev (sink (effects (coord_state c))) ->
       logiclevel ev = LOW \/ logiclevel ev = HIGH).
Proof.
  split; [reflexivity|].
  intros c Hr. change (inv_effects (effects (coord_state c))).
  induction Hr as [inp|t s _ IH|s bytes _ IH].
  - apply run_init_pres. intros ev [].
  - apply run_step_pres. exact IH.
  - exact IH.
Qed.

Lemma event_levels_normalized_witness :
  reachable (run_step None (coord_state (run_init
    (mkState ((38 :: IDENTIFY :: ZEP_TEENSY_TO_ZEP_UUID) ++ event_wire (3, 42, 7)) [] false)))) /\
  sink (effects (coord_state (run_step None (coord_state (run_init
    (mkState ((38 :: IDENTIFY :: ZEP_TEENSY_TO_ZEP_UUID) ++ event_wire (3, 42, 7)) [] false))))))
    = [{| timestamp := 42; line := 3; logiclevel := HIGH |}] /\
  (logiclevel {| timestamp := 42; line := 3; logiclevel := HIGH |} = LOW \/
   logiclevel {| timestamp := 42; line := 3; logiclevel := HIGH |} = HIGH).
Proof.
  set (s0 := mkState ((38 :: IDENTIFY :: ZEP_TEENSY_TO_ZEP_UUID) ++ event_wire (3, 42, 7)) [] false).
  assert (E : run_init s0 = CRunning (coord_state (run_init s0))) by (vm_compute; reflexivity).
  pose proof (reach_init ((38 :: IDENTIFY :: ZEP_TEENSY_TO_ZEP_UUID) ++ event_wire (3, 42, 7))) as R0.
  fold s0 in R0. rewrite E in R0.
  pose proof (reach_step None _ R0) as R1.
  assert (Hs : sink (effects (coord_state (run_step None (coord_state (run_init s0))))) =
               [{| timestamp := 42; line := 3; logiclevel := HIGH |}]) by (vm_compute; reflexivity).
  split; [exact R1|]. split; [exact Hs|].
  apply (proj2 event_levels_normalized _ R1). rewrite Hs. left. reflexivity.
Defined.

(** ** Decoding a buffer: edge cases *)

Ltac split_ifs :=
  repeat match goal with
  | |- context [if ?b then _ else _] => let E := fresh "E" in destruct b eqn:E; cbv beta iota
  end.

Lemma unpack_items_length fs b : length (unpack_items fs b) = length fs.
Proof.
  revert b. induction fs as [|f fs IH]; intros b; [reflexivity|].
  destruct f; cbn [unpack_items length]; now rewrite IH.
Qed.

Lemma payload_dict_header k fs : _payload_dict k = Some fs -> exists fs', fs = FB :: FB :: fs'.
Proof.
  unfold _payload_dict. split_ifs; intros H; try discriminate H;
    injection H as <-; eexists; reflexivity.
Qed.

Lemma payload_dict_none k : k < IDENTIFY \/ EVENT_TRIGGER < k -> _payload_dict k = None.
Proof.
  intros Hk. unfold _payload_dict. split_ifs; try reflexivity;
  match goal with E : (k =? _) = true |- _ => apply Z.eqb_eq in E end;
  unfold IDENTIFY, REGISTER_INPUT, REGISTER_SINGLE_SHOT, DEREGISTER_INPUT, TIME, TIME_SET,
    ACKNOWLEDGE_SUCCES, ACKNOWLEDGE_FAILURE, ACKNOWLEDGE_LINE_INVALID, ACKNOWLEDGE_TIME,
    EVENT_TRIGGER in *; lia.
Qed.

Lemma nth_error_1 b k : nth_error b 1 = Some k -> hd 0 (tl b) = k.
Proof. destruct b as [|x [|y b]]; cbn [nth_error tl hd]; intros H; try discriminate H; congruence. Qed.

Lemma parse_packet_unfold b k fs :
  nth_error b 1 = Some k -> _payload_dict k = Some fs -> parse_packet b = unpack fs b.
Proof.
  intros E F. unfold parse_packet, buf_index. rewrite E. cbv iota. rewrite F. reflexivity.
Qed.

Lemma parse_packet_fields b vs :
  parse_packet b = Ok vs ->
  exists k fs', nth_error b 1 = Some k /\ _payload_dict k = Some (FB :: FB :: fs') /\
    length b = fmt_size (FB :: FB :: fs') /\
    vs = VInt (hd 0 b) :: VInt k :: unpack_items fs' (tl (tl b)).
Proof.
  unfold parse_packet, buf_index.
  destruct (nth_error b 1) as [k|] eqn:E; [|discriminate].
  destruct (_payload_dict k) as [fs|] eqn:F; [|discriminate].
  destruct (payload_dict_header _ _ F) as [fs' ->].
  unfold unpack. destruct (Nat.eqb_spec (length b) (fmt_size (FB :: FB :: fs'))) as [Hl|];
    [|discriminate]. intros H. injection H as <-.
  exists k, fs'. repeat split; auto.
  change (unpack_items (FB :: FB :: fs') b)
    with (VInt (hd 0 b) :: VInt (hd 0 (tl b)) :: unpack_items fs' (tl (tl b))).
  now rewrite (nth_error_1 _ _ E).
Qed.

(** ** Building frames *)

Lemma in_byte_range z : (0 <=? z) && (z <? 256) = true -> 0 <= z < 256.
Proof. intros H. apply andb_true_iff in H as [H1 H2]. apply Z.leb_le in H1. apply Z.ltb_lt in H2. lia. Qed.

(** ** [TeensyError.__str__] *)

Lemma errdict_some k : _errdict k <> None <-> 1 <= k <= 5.
Proof.
  unfold _errdict, NOT_A_TEENSY, NOT_CONNECTED, UNABLE_TO_CONNECT, INVALID_TRIGGER_LINE,
    TEENSY_ERROR.
  destruct (Z.eqb_spec k 1); [split; [lia|discriminate]|].
  destruct (Z.eqb_spec k 2); [split; [lia|discriminate]|].
  destruct (Z.eqb_spec k 3); [split; [lia|discriminate]|].
  destruct (Z.eqb_spec k 4); [split; [lia|discriminate]|].
  destruct (Z.eqb_spec k 5); [split; [lia|discriminate]|].
  split; [intros H; contradiction H; reflexivity|lia].
Qed.

(** * Further properties of the code *)

(** X1: a buffer shorter than two bytes has no kind: [parse_packet] and
    [pkgtype] raise [IndexError] on [self.buf[1]]. *)
Theorem parse_packet_short_buffer (b : list Z) :
  (length b < 2)%nat -> parse_packet b = Raise IndexError /\ pkgtype b = Raise IndexError.
Proof.
  destruct b as [|x [|y b]]; intros H; [split; reflexivity | split; reflexivity |].
  cbn [length] in H. lia.
Qed.

Lemma parse_packet_short_buffer_witness :
  (length [12] < 2)%nat /\ parse_packet [12] = Raise IndexError /\ pkgtype [12] = Raise IndexError.
Proof. split; [cbn; lia | apply parse_packet_short_buffer; cbn; lia]. Defined.

(** X2: a kind byte outside [IDENTIFY .. EVENT_TRIGGER] is no key of
    [_payload_dict]: [parse_packet] raises [KeyError], and [is_event] says
    the frame is no event. *)
Theorem parse_packet_unknown_kind (b : list Z) (k : Z) :
  nth_error b 1 = Some k -> k < IDENTIFY \/ EVENT_TRIGGER < k ->
  parse_packet b = Raise KeyError /\ is_event b = Ok false.
Proof.
  intros E Hk. destruct b as [|x [|y b]]; cbn [nth_error] in E; try discriminate E.
  injection E as ->. split.
  - unfold parse_packet, buf_index. cbn [nth_error]. cbv iota.
    now rewrite payload_dict_none.
  - rewrite is_event_kind. unfold _events. f_equal. apply Z.eqb_neq.
    unfold IDENTIFY, EVENT_TRIGGER in *. lia.
Qed.

Lemma parse_packet_unknown_kind_witness :
  nth_error [2; 12; 0] 1 = Some 12 /\ (12 < IDENTIFY \/ EVENT_TRIGGER < 12) /\
  parse_packet [2; 12; 0] = Raise KeyError /\ is_event [2; 12; 0] = Ok false.
Proof.
  split; [reflexivity|]. split; [right; reflexivity|].
  apply (parse_packet_unknown_kind [2; 12; 0] 12); [reflexivity | right; reflexivity].
Defined.

(** X3: for a known kind the buffer must have exactly the size of the
    kind's struct: otherwise [parse_packet] raises [struct.error]; with
    the right size it returns the tuple that starts with the length byte
    and the kind, and has one field per struct item. *)
Theorem parse_packet_size_check (b : list Z) (k : Z) (fs : list fmt_item) :
  nth_error b 1 = Some k -> _payload_dict k = Some fs ->
  (length b <> fmt_size fs -> parse_packet b = Raise StructError) /\
  (length b = fmt_size fs ->
     exists rest, parse_packet b = Ok (VInt (hd 0 b) :: VInt k :: rest) /\
                  length rest = (length fs - 2)%nat).
Proof.
  intros E F. pose proof (parse_packet_unfold _ _ _ E F) as Hp. split.
  - intros Hl. rewrite Hp. unfold unpack. apply Nat.eqb_neq in Hl. now rewrite Hl.
  - intros Hl. destruct (payload_dict_header _ _ F) as [fs' ->].
    exists (unpack_items fs' (tl (tl b))). rewrite Hp. unfold unpack.
    rewrite Hl, Nat.eqb_refl. split.
    + change (unpack_items (FB :: FB :: fs') b)
        with (VInt (hd 0 b) :: VInt (hd 0 (tl b)) :: unpack_items fs' (tl (tl b))).
      now rewrite (nth_error_1 _ _ E).
    + rewrite unpack_items_length. cbn [length]. lia.
Qed.

Lemma parse_packet_size_check_witness :
  nth_error [2; 7; 0] 1 = Some 7 /\ _payload_dict 7 = Some _ACKNOWLEDGE_SUCCES /\
  parse_packet [2; 7; 0] = Raise StructError.
Proof.
  split; [reflexivity|]. split; [reflexivity|].
  apply (proj1 (parse_packet_size_check [2; 7; 0] 7 _ACKNOWLEDGE_SUCCES eq_refl eq_refl)).
  cbn. discriminate.
Defined.

(** X4: [parse_packet] never checks the declared-length byte [buf[0]]:
    a buffer that differs only there parses the same, with that byte as
    the first field, and raises the same errors. *)
Theorem parse_packet_ignores_length_byte (x y : Z) (r : list Z) :
  parse_packet (x :: r) =
  match parse_packet (y :: r) with
  | Ok (_ :: vs) => Ok (VInt x :: vs)
  | res => res
  end.
Proof.
  unfold parse_packet, buf_index. cbn [nth_error].
  destruct r as [|k r]; cbn [nth_error]; cbv iota; [reflexivity|].
  destruct (_payload_dict k) as [fs|] eqn:F; [|reflexivity].
  destruct (payload_dict_header _ _ F) as [fs' ->].
  unfold unpack. cbn [length]. destruct (Nat.eqb _ _); reflexivity.
Qed.

(** X5: [prepare_register], [prepare_deregister] and [prepare_single_shot]
    build the frame [3, kind, line] for a line in [0, 255] and raise
    [struct.error] for any other line. *)
Theorem prepare_line_range (line : Z) :
  prepare_register line =
    (if (0 <=? line) && (line <? 256) then Ok [3; REGISTER_INPUT; line] else Raise StructError) /\
  prepare_deregister line =
    (if (0 <=? line) && (line <? 256) then Ok [3; DEREGISTER_INPUT; line] else Raise StructError) /\
  prepare_single_shot line =
    (if (0 <=? line) && (line <? 256) then Ok [3; REGISTER_SINGLE_SHOT; line] else Raise StructError).
Proof.
  destruct ((0 <=? line) && (line <? 256)) eqn:E.
  - apply in_byte_range in E.
    split; [apply prepare_register_ok; exact E|].
    split; [apply prepare_deregister_ok; exact E|].
    apply (prepare_line_bytes _ REGISTER_SINGLE_SHOT line);
      [reflexivity | unfold REGISTER_SINGLE_SHOT; lia | exact E].
  - repeat split; unfold prepare_register, prepare_deregister, prepare_single_shot,
      _REGISTER_INPUT, _DEREGISTER_INPUT, _REGISTER_SINGLE_SHOT, _HEADER, _BYTE;
      cbn [pack pack_item app]; rewrite E; reflexivity.
Qed.

(** X6: [prepare_set_time] builds a 10-byte frame that [parse_packet]
    reads back as [(10, TIME_SET, time_us)] for a time in [0, 2^64), and
    raises [struct.error] for any other time. *)
Theorem prepare_set_time_range (time_us : Z) :
  (0 <= time_us < 2 ^ 64 ->
     exists b, prepare_set_time time_us = Ok b /\ length b = 10%nat /\
       parse_packet b = Ok [VInt 10; VInt TIME_SET; VInt time_us]) /\
  (~ (0 <= time_us < 2 ^ 64) -> prepare_set_time time_us = Raise StructError).
Proof.
  split.
  - intros Ht. exists ([10; TIME_SET] ++ le_bytes 8 time_us).
    assert (E : (0 <=? time_us) && (time_us <? 2 ^ 64) = true)
      by (apply andb_true_iff; split; [apply Z.leb_le | apply Z.ltb_lt]; lia).
    split; [|split].
    + unfold prepare_set_time, _TIME_SET, _HEADER, _UINT64. cbn [pack pack_item app].
      rewrite E. reflexivity.
    + rewrite length_app, length_le_bytes. reflexivity.
    + transitivity (@Ok (list pyval)
                      [VInt 10; VInt TIME_SET; VInt (le_value (le_bytes 8 time_us))]).
      * reflexivity.
      * rewrite le_value_le_bytes; [reflexivity|]. change (8 * Z.of_nat 8) with 64. lia.
  - intros Ht. unfold prepare_set_time, _TIME_SET, _HEADER, _UINT64. cbn [pack pack_item app].
    replace ((0 <=? time_us) && (time_us <? 2 ^ 64)) with false; [reflexivity|].
    symmetry. apply andb_false_iff.
    destruct (Z.leb_spec 0 time_us); [right; apply Z.ltb_ge; lia | left; reflexivity].
Qed.

Lemma prepare_set_time_range_witness :
  exists b, prepare_set_time 1000 = Ok b /\ length b = 10%nat /\
    parse_packet b = Ok [VInt 10; VInt TIME_SET; VInt 1000].
Proof. apply (proj1 (prepare_set_time_range 1000)). lia. Defined.

(** X15: [str()] of a [TeensyError] succeeds exactly for the error codes
    1 to 5, the keys of [_errdict]; for [NO_ERROR] and for a non-int
    error it raises [KeyError]. *)
Theorem TeensyError_str_keys :
  (forall k extra, (exists msg, TeensyError_str (AInt k) extra = Ok msg) <-> 1 <= k <= 5) /\
  (forall extra, TeensyError_str (AInt NO_ERROR) extra = Raise KeyError) /\
  (forall extra, TeensyError_str ATupleErr extra = Raise KeyError).
Proof.
  split; [|split; intros; reflexivity].
  intros k extra. rewrite <- errdict_some. unfold TeensyError_str. split.
  - intros [msg H]. destruct (_errdict k); [discriminate | discriminate H].
  - intros Hk. destruct (_errdict k) as [m|]; [|contradiction Hk; reflexivity].
    destruct extra as [x|]; [destruct (String.length x =? 0)%nat|]; eexists; reflexivity.
Qed.

(** X19: in the older module [src/Teensy.py], [prepare_single_shot]
    packs two values for a three-item struct: it raises [struct.error]
    for every line. *)
Theorem legacy_prepare_single_shot_raises (line : Z) :
  Teensy_legacy.prepare_single_shot line = Raise StructError.
Proof. reflexivity. Qed.

(** ** Frames read from the port *)

Lemma bytes_only_check l :
  forallb (fun z => (0 <=? z) && (z <? 256)) l = true -> bytes_only l.
Proof.
  induction l as [|z l IH]; intros H; [constructor|].
  cbn [forallb] in H. apply andb_true_iff in H as [H1 H2].
  constructor; [now apply in_byte_range | exact (IH H2)].
Qed.

Lemma take_frame_spec inp pkt rest :
  take_frame inp = Some (pkt, rest) ->
  inp = pkt ++ rest /\
  exists tot body, pkt = tot :: body /\ tot <> 0 /\
    (0 < tot -> tot = Z.of_nat (S (length body))).
Proof.
  destruct inp as [|tot r]; cbn [take_frame]; [discriminate|].
  destruct (Z.eqb_spec tot 0) as [|H0]; [discriminate|].
  destruct (Nat.leb_spec (Z.to_nat tot - 1) (length r)) as [Hle|]; [|discriminate].
  intros H. injection H as <- <-. split; [cbn [app]; now rewrite firstn_skipn|].
  exists tot, (firstn (Z.to_nat tot - 1) r). split; [reflexivity|]. split; [exact H0|].
  intros Hp. rewrite length_firstn, Nat.min_l by lia. lia.
Qed.

Lemma read_fuel_frame n h :
  forall st pkt st', bytes_only (input st) -> read_fuel n h st = Done pkt st' ->
  exists pre, input st = pre ++ pkt ++ input st' /\ hd 0 pkt = Z.of_nat (length pkt) /\
    (h = false -> pre = []) /\ (h = true -> is_event pkt = Ok false).
Proof.
  induction n as [|n IH]; intros st pkt st' Hb H; cbn [read_fuel] in H; [discriminate H|].
  destruct (take_frame (input st)) as [[p rest]|] eqn:Tf; [|discriminate H].
  destruct (take_frame_spec _ _ _ Tf) as (Ei & tot & body & -> & H0 & Hl).
  assert (Hhd : hd 0 (tot :: body) = Z.of_nat (length (tot :: body))).
  { unfold bytes_only in Hb. rewrite Ei in Hb. cbn [app] in Hb.
    apply Forall_inv in Hb. cbn [hd length]. apply Hl. lia. }
  assert (Hr : bytes_only rest).
  { unfold bytes_only in *. rewrite Ei in Hb. apply Forall_app in Hb. tauto. }
  destruct h.
  - destruct (is_event (tot :: body)) as [[|]|e] eqn:Ev; [| |discriminate H].
    + destruct (parse_packet (tot :: body)) as [tup|e]; [|discriminate H].
      destruct (unpack_event tup) as [[[l t] x]|e]; [|discriminate H].
      unfold bind, handle_event in H. cbv beta iota in H.
      destruct (IH (emit (EEvent (TeensyLineEvent t l x)) (set_input rest st)) _ _ Hr H)
        as (pre & Ep & Hh & _ & Hev).
      exists ((tot :: body) ++ pre). split; [|split; [exact Hh | split; [discriminate | exact Hev]]].
      cbn [input emit set_input] in Ep. rewrite Ei, Ep. now rewrite <- app_assoc.
    + injection H as <- <-. exists []. split; [exact Ei|].
      split; [exact Hhd|]. split; [reflexivity|]. intros _. exact Ev.
  - injection H as <- <-. exists []. split; [exact Ei|].
    split; [exact Hhd|]. split; [reflexivity|]. discriminate.
Qed.

Lemma take_frame_short tot r :
  tot = 0 \/ (0 < tot /\ (length r < Z.to_nat tot - 1)%nat) -> take_frame (tot :: r) = None.
Proof.
  intros H. cbn [take_frame]. destruct (Z.eqb_spec tot 0); [reflexivity|].
  destruct H as [H|[_ H]]; [contradiction|].
  destruct (Nat.leb_spec (Z.to_nat tot - 1) (length r)); [lia|reflexivity].
Qed.

Lemma bind_blocked {A B} (m : M A) (k : A -> M B) st st' :
  m st = Blocked st' -> bind m k st = Blocked st'.
Proof. intros E. unfold bind. now rewrite E. Qed.

Lemma fetch_event_wire e rest L c :
  valid_event e = true ->
  _fetch_event (mkState (event_wire e ++ rest) L c) =
  Done tt (mkState rest (L ++ [EEvent (event_of e)]) c).
Proof.
  destruct e as [[l t] x]. intros He. unfold _fetch_event.
  assert (Hr : _read_packet false (mkState (event_wire (l, t, x) ++ rest) L c) =
               Done (event_wire (l, t, x)) (mkState rest L c)).
  { unfold _read_packet. cbn [read_fuel input]. rewrite take_frame_event. reflexivity. }
  rewrite (bind_done _ _ _ _ _ Hr). cbv beta.
  rewrite is_event_wire, bind_lift_ok. cbv beta iota.
  rewrite (parse_event_wire l t x He). reflexivity.
Qed.

Lemma length_concat_events evs :
  length (concat (map event_wire evs)) = (12 * length evs)%nat.
Proof.
  induction evs as [|e evs IH]; [reflexivity|].
  cbn [map concat length]. rewrite length_app, length_event_wire, IH. lia.
Qed.

Lemma fetch_loop_events evs :
  forall n L c, forallb valid_event evs = true ->
  (length (concat (map event_wire evs)) < n)%nat ->
  fetch_loop n (mkState (concat (map event_wire evs)) L c) =
  Done tt (mkState [] (L ++ map (fun e => EEvent (event_of e)) evs) c).
Proof.
  induction evs as [|e evs IH]; intros n L c Hv Hn; (destruct n as [|n]; [cbn [length] in Hn; lia|]).
  - cbn [map concat app]. rewrite app_nil_r. reflexivity.
  - cbn [forallb] in Hv. apply andb_true_iff in Hv as [He Hv].
    cbn [map concat] in *. rewrite length_app, length_event_wire in Hn.
    destruct e as [[l t] x].
    rewrite (fetch_loop_cons n _ 12 (tl (event_wire (l, t, x)) ++ concat (map event_wire evs)))
      by reflexivity.
    rewrite (bind_done _ _ _ _ _ (fetch_event_wire (l, t, x) _ L c He)). cbv beta.
    rewrite IH by (auto; lia). now rewrite <- app_assoc.
Qed.

(** ** Effects a computation appends *)

Lemma appends_ret P {A} (a : A) : appends P (ret a).
Proof.
  intros s. exists []. split; [unfold ret; cbn [outcome_state]; now rewrite app_nil_r | constructor].
Qed.

Lemma appends_throw P {A} (e : exn) : appends P (@throw A e).
Proof.
  intros s. exists []. split; [unfold throw; cbn [outcome_state]; now rewrite app_nil_r | constructor].
Qed.

Lemma appends_lift P {A} (r : result A) : appends P (lift r).
Proof. destruct r; [apply appends_ret | apply appends_throw]. Qed.

Lemma appends_emit P e : P e = true -> appends P (fun st => Done tt (emit e st)).
Proof. intros He s. exists [e]. split; [reflexivity | constructor; [exact He | constructor]]. Qed.

Lemma appends_bind P {A B} (m : M A) (k : A -> M B) :
  appends P m -> (forall a, appends P (k a)) -> appends P (bind m k).
Proof.
  intros Hm Hk s. destruct (Hm s) as (l1 & E1 & F1). unfold bind.
  destruct (m s) as [a s1|e s1|s1]; cbn [outcome_state] in *; [|exists l1; auto | exists l1; auto].
  destruct (Hk a s1) as (l2 & E2 & F2). exists (l1 ++ l2).
  split; [rewrite E2, E1, app_assoc; reflexivity | apply Forall_app; auto].
Qed.

Lemma appends_read_fuel P :
  (forall ev, P (EEvent ev) = true) -> forall n h, appends P (read_fuel n h).
Proof.
  intros HP. induction n as [|n IH]; intros h s; cbn [read_fuel];
    [exists []; split; [cbn [outcome_state]; now rewrite app_nil_r | constructor]|].
  destruct (take_frame (input s)) as [[pkt rest]|];
    [|exists []; split; [cbn [outcome_state]; now rewrite app_nil_r | constructor]].
  assert (N : exists l, effects (set_input rest s) = effects s ++ l /\ Forall (fun e => P e = true) l)
    by (exists []; split; [cbn [set_input effects]; now rewrite app_nil_r | constructor]).
  destruct h; [|exact N].
  destruct (is_event pkt) as [[|]|e]; [|exact N|exact N].
  destruct (parse_packet pkt) as [tup|e]; [|exact N].
  destruct (unpack_event tup) as [[[l t] x]|e]; [|exact N].
  exact (appends_bind P _ _ (appends_emit P _ (HP _)) (fun _ => IH true) (set_input rest s)).
Qed.

Lemma appends_read_packet P :
  (forall ev, P (EEvent ev) = true) -> forall h, appends P (_read_packet h).
Proof. intros HP h s. exact (appends_read_fuel P HP _ h s). Qed.

Ltac appends_tac :=
  repeat first
    [ apply appends_bind; [|intros ?; cbv beta]
    | apply appends_ret | apply appends_throw | apply appends_lift
    | apply appends_emit; reflexivity
    | apply appends_read_packet; intros; reflexivity
    | match goal with |- appends _ (match ?x with _ => _ end) => destruct x end ].

Lemma appends_fetch_event : appends is_event_effect _fetch_event.
Proof. unfold _fetch_event. appends_tac. Qed.

Lemma appends_fetch_loop n : appends is_event_effect (fetch_loop n).
Proof.
  induction n as [|n IH]; intros s; cbn [fetch_loop];
    [exists []; split; [cbn [outcome_state]; now rewrite app_nil_r | constructor]|].
  destruct (input s);
    [exists []; split; [cbn [outcome_state]; now rewrite app_nil_r | constructor]|].
  exact (appends_bind _ _ _ appends_fetch_event (fun _ => IH) s).
Qed.

Lemma handle_task_appends t : appends not_answer (_handle_task t).
Proof.
  destruct t; unfold _handle_task, _register_line, _register_single_shot,
    _deregister_input, _time; appends_tac.
Qed.

Lemma handle_task_shape_events t :
  exists prep k,
    (forall st, _handle_task t st =
       (pkt <- lift prep ;; _write_packet pkt ;;; p <- _read_packet true ;; k p) st) /\
    (forall p, appends is_event_effect (k p)).
Proof.
  destruct t as [l|l|l|];
    (eexists; eexists; split; [intros st; reflexivity | intros p; cbv beta; appends_tac]).
Qed.

Lemma bind_done_inv {A B} (m : M A) (k : A -> M B) st b st' :
  bind m k st = Done b st' -> exists a s1, m st = Done a s1 /\ k a s1 = Done b st'.
Proof.
  unfold bind. destruct (m st) as [a s1|e s1|s1]; intros H; [exists a, s1; auto | discriminate | discriminate].
Qed.

Lemma lift_done_inv {A} (r : result A) st a st' : lift r st = Done a st' -> r = Ok a /\ st' = st.
Proof. unfold lift, ret, throw. destruct r; intros H; [injection H as <- <-; auto | discriminate]. Qed.

Lemma handle_task_done t st a s1 :
  _handle_task t st = Done a s1 ->
  exists cmd l, effects s1 = effects st ++ EWrite cmd :: l /\ Forall (fun e => is_event_effect e = true) l.
Proof.
  destruct (handle_task_shape_events t) as (prep & k & Ht & Hk). rewrite Ht.
  destruct prep as [pkt|e]; [|rewrite bind_lift_raise; discriminate].
  intros H. rewrite bind_lift_ok in H. cbv beta in H. rewrite bind_write in H. cbv beta in H.
  apply bind_done_inv in H as (p & s2 & Hr & Hkp).
  destruct (appends_read_packet is_event_effect (fun _ => eq_refl) true (emit (EWrite pkt) st))
    as (l1 & E1 & F1).
  rewrite Hr in E1. cbn [outcome_state emit effects] in E1.
  destruct (Hk p s2) as (l2 & E2 & F2). rewrite Hkp in E2. cbn [outcome_state] in E2.
  exists pkt, (l1 ++ l2). split.
  - rewrite E2, E1, <- !app_assoc. reflexivity.
  - apply Forall_app. auto.
Qed.

Lemma run_step_task t st :
  run_step (Some t) st =
  match _handle_task t st with
  | Done a s1 => CRunning (emit (EAnswer a) s1)
  | Thrown _ s1 => CDead (set_connected false s1)
  | Blocked s1 => CStuck s1
  end.
Proof. unfold run_step, bind. destruct (_handle_task t st); reflexivity. Qed.

Lemma answers_app a b : answers (a ++ b) = answers a ++ answers b.
Proof. induction a as [|e a IH]; [reflexivity|]. destruct e; cbn [app answers]; now rewrite IH. Qed.

Lemma first_answer_skip l m :
  Forall (fun e => not_answer e = true) l -> first_answer (l ++ m) = first_answer m.
Proof.
  induction 1 as [|e l He _ IH]; [reflexivity|].
  destruct e; cbn [app first_answer not_answer] in *; try exact IH; discriminate He.
Qed.

(** A call on a running thread while [connected] is set: the thread
    runs the task; the call returns with the answer put on the queue, or
    never returns when the thread ended or waits in a read. *)
Lemma call_running {A} t (client : answer -> result A) s :
  connected s = true ->
  call t client (CRunning s) =
  match _handle_task t s with
  | Done a s1 => Returned (client a) (CRunning (emit (EAnswer a) s1))
  | Thrown _ s1 => Hangs (CDead (set_connected false s1))
  | Blocked s1 => Hangs (CStuck s1)
  end.
Proof.
  intros Hc. unfold call. cbn [coord_state]. rewrite Hc. cbn [negb].
  rewrite run_step_task.
  destruct (handle_task_appends t s) as (l & El & Fl).
  destruct (_handle_task t s) as [a s1|e s1|s1]; cbn [outcome_state] in El;
    cbn [coord_state emit set_connected effects]; rewrite El.
  - rewrite <- app_assoc, skipn_len_app, (first_answer_skip _ _ Fl). reflexivity.
  - rewrite skipn_len_app, <- (app_nil_r l), (first_answer_skip _ _ Fl). reflexivity.
  - rewrite skipn_len_app, <- (app_nil_r l), (first_answer_skip _ _ Fl). reflexivity.
Qed.

Lemma call_not_connected {A} t (client : answer -> result A) c :
  connected (coord_state c) = false ->
  call t client c = Returned (Raise (TeensyErrorRaised (AInt NOT_CONNECTED))) c.
Proof. intros Hc. unfold call. now rewrite Hc. Qed.

Lemma dict_ack k fs' :
  _payload_dict k = Some (FB :: FB :: fs') ->
  k = ACKNOWLEDGE_SUCCES \/ k = ACKNOWLEDGE_LINE_INVALID -> fs' = [].
Proof. intros F [->| ->]; vm_compute in F; congruence. Qed.

Lemma single_shot_answer line st a s1 :
  _register_single_shot line st = Done a s1 -> a = AInt TEENSY_ERROR.
Proof.
  unfold _register_single_shot.
  destruct (prepare_single_shot line) as [pkt|e]; [|rewrite bind_lift_raise; discriminate].
  rewrite bind_lift_ok. cbv beta. rewrite bind_write. cbv beta. intros H.
  apply bind_done_inv in H as (p & s2 & _ & H).
  apply bind_done_inv in H as (tup & s3 & Hp & H).
  apply lift_done_inv in Hp as [Hp _].
  apply parse_packet_fields in Hp as (k & fs' & _ & F & _ & ->).
  pose proof (unpack_items_length fs' (tl (tl p))) as Hlen.
  destruct (unpack_items fs' (tl (tl p))) as [|v1 [|v2 vs]]; try discriminate H.
  revert H. cbn [pyval_eqb].
  destruct (Z.eqb_spec k ACKNOWLEDGE_SUCCES) as [Ek|_].
  { rewrite (dict_ack k fs' F (or_introl Ek)) in Hlen. discriminate Hlen. }
  destruct (Z.eqb_spec k ACKNOWLEDGE_LINE_INVALID) as [Ek|_].
  { rewrite (dict_ack k fs' F (or_intror Ek)) in Hlen. discriminate Hlen. }
  unfold ret. intros H. congruence.
Qed.

Lemma deregister_answer line st a s1 :
  _deregister_input line st = Done a s1 -> a = AInt NO_ERROR.
Proof.
  unfold _deregister_input.
  destruct (prepare_deregister line) as [pkt|e]; [|rewrite bind_lift_raise; discriminate].
  rewrite bind_lift_ok. cbv beta. rewrite bind_write. cbv beta. intros H.
  apply bind_done_inv in H as (p & s2 & _ & H).
  apply bind_done_inv in H as (tup & s3 & _ & H).
  destruct tup as [|v0 [|v1 [|v2 vs]]]; try discriminate H.
  destruct (pyval_eqb v1 (VInt ACKNOWLEDGE_SUCCES)); [|discriminate H].
  unfold ret in H. congruence.
Qed.

Lemma bytes_eqb_true a b : bytes_eqb a b = true -> a = b.
Proof.
  revert b. induction a as [|x a IH]; intros [|y b] H; cbn [bytes_eqb] in H; try discriminate H;
    [reflexivity|].
  apply andb_true_iff in H as [H1 H2]. apply Z.eqb_eq in H1. subst y. f_equal. auto.
Qed.

(** X7: with the port delivering bytes, a frame returned by
    [_read_packet] is a piece of the input that starts with its own
    length; the input before it is gone.  Without [handle_event] nothing
    comes before it; with [handle_event] the frame returned is never an
    event (the frames before it were events, handled). *)
Theorem read_packet_frames (h : bool) (st : state) (pkt : list Z) (st' : state) :
  bytes_only (input st) -> _read_packet h st = Done pkt st' ->
  exists pre, input st = pre ++ pkt ++ input st' /\ hd 0 pkt = Z.of_nat (length pkt) /\
    (h = false -> pre = []) /\ (h = true -> is_event pkt = Ok false).
Proof. intros Hb H. exact (read_fuel_frame _ h st pkt st' Hb H). Qed.

Lemma read_packet_frames_witness :
  bytes_only (input (mkState (event_wire (3, 42, 1) ++ [2; 7; 9]) [] true)) /\
  _read_packet true (mkState (event_wire (3, 42, 1) ++ [2; 7; 9]) [] true) =
    Done [2; 7] (mkState [9] [EEvent (TeensyLineEvent 42 3 1)] true) /\
  exists pre, input (mkState (event_wire (3, 42, 1) ++ [2; 7; 9]) [] true) =
                pre ++ [2; 7] ++ input (mkState [9] [EEvent (TeensyLineEvent 42 3 1)] true) /\
    hd 0 [2; 7] = Z.of_nat (length [2; 7]) /\ (true = false -> pre = []) /\
    (true = true -> is_event [2; 7] = Ok false).
Proof.
  assert (Hb : bytes_only (input (mkState (event_wire (3, 42, 1) ++ [2; 7; 9]) [] true)))
    by (apply bytes_only_check; vm_compute; reflexivity).
  assert (Hr : _read_packet true (mkState (event_wire (3, 42, 1) ++ [2; 7; 9]) [] true) =
               Done [2; 7] (mkState [9] [EEvent (TeensyLineEvent 42 3 1)] true))
    by (vm_compute; reflexivity).
  split; [exact Hb|]. split; [exact Hr|].
  exact (read_packet_frames true _ _ _ Hb Hr).
Defined.

(** X8: [_read_packet] never returns on an empty input, on a first byte
    [0] (the inner loop of [_read_packet] spins) or on a frame shorter
    than its first byte says: the thread waits for bytes.  The main
    loop's idle step does nothing on an empty input and waits forever in
    the other two cases. *)
Theorem incomplete_frame_blocks (h : bool) (L : list effect) (c : bool) :
  (_read_packet h (mkState [] L c) = Blocked (mkState [] L c) /\
   run_step None (mkState [] L c) = CRunning (mkState [] L c)) /\
  (forall tot r, tot = 0 \/ (0 < tot /\ (length r < Z.to_nat tot - 1)%nat) ->
     _read_packet h (mkState (tot :: r) L c) = Blocked (mkState (tot :: r) L c) /\
     run_step None (mkState (tot :: r) L c) = CStuck (mkState (tot :: r) L c)).
Proof.
  split; [split; reflexivity|].
  intros tot r Ht.
  assert (Hr : forall h', _read_packet h' (mkState (tot :: r) L c) = Blocked (mkState (tot :: r) L c)).
  { intros h'. unfold _read_packet. cbn [read_fuel input].
    rewrite (take_frame_short tot r Ht). reflexivity. }
  split; [apply Hr|].
  unfold run_step. rewrite (fetch_loop_cons _ (mkState (tot :: r) L c) tot r) by reflexivity.
  unfold _fetch_event.
  rewrite (bind_blocked _ _ _ _ (bind_blocked _ _ _ _ (Hr false))). reflexivity.
Qed.

Lemma incomplete_frame_blocks_witness :
  (3 = 0 \/ (0 < 3 /\ (length [7] < Z.to_nat 3 - 1)%nat)) /\
  _read_packet true (mkState [3; 7] [] true) = Blocked (mkState [3; 7] [] true) /\
  run_step None (mkState [3; 7] [] true) = CStuck (mkState [3; 7] [] true).
Proof.
  assert (H : 3 = 0 \/ (0 < 3 /\ (length [7] < Z.to_nat 3 - 1)%nat)) by (right; cbn; lia).
  split; [exact H|]. exact (proj2 (incomplete_frame_blocks true [] true) 3 [7] H).
Defined.

(** X9: when the waiting bytes are whole [EventTrigger] frames, one idle
    step of the main loop consumes all of them and records one
    [TeensyLineEvent] per frame, in arrival order. *)
Theorem idle_step_handles_event_frames (evs : list (Z * Z * Z)) (L : list effect) (c : bool) :
  forallb valid_event evs = true ->
  run_step None (mkState (concat (map event_wire evs)) L c) =
  CRunning (mkState [] (L ++ map (fun e => EEvent (event_of e)) evs) c).
Proof.
  intros Hv. unfold run_step. cbn [input].
  rewrite fetch_loop_events by (auto; lia). reflexivity.
Qed.

Lemma idle_step_handles_event_frames_witness :
  forallb valid_event [(3, 42, 1); (4, 43, 0)] = true /\
  run_step None (mkState (concat (map event_wire [(3, 42, 1); (4, 43, 0)])) [] true) =
  CRunning (mkState [] ([] ++ map (fun e => EEvent (event_of e)) [(3, 42, 1); (4, 43, 0)]) true).
Proof.
  assert (H : forallb valid_event [(3, 42, 1); (4, 43, 0)] = true) by reflexivity.
  split; [exact H|]. exact (idle_step_handles_event_frames _ [] true H).
Defined.

(** X10: an idle step of the main loop ([_fetch_event] while data is
    waiting) only appends events to what the thread did: it never writes
    to the port and never puts an answer on the answer queue, also when
    it ends the thread or waits. *)
Theorem idle_step_only_records_events (st : state) :
  exists l, effects (coord_state (run_step None st)) = effects st ++ l /\
    Forall (fun e => is_event_effect e = true) l.
Proof. unfold run_step. rewrite run_catch_effects. apply appends_fetch_loop. Qed.

(** X11: a task step that leaves the thread running wrote exactly one
    command frame, then recorded only events that arrived before the
    reply, and put exactly one answer, last. *)
Theorem task_step_effects (t : task) (st st' : state) :
  run_step (Some t) st = CRunning st' ->
  exists cmd l a, effects st' = effects st ++ [EWrite cmd] ++ l ++ [EAnswer a] /\
    Forall (fun e => is_event_effect e = true) l.
Proof.
  intros H. rewrite run_step_task in H.
  destruct (_handle_task t st) as [a s1|e s1|s1] eqn:E; try discriminate H.
  injection H as <-. destruct (handle_task_done _ _ _ _ E) as (cmd & l & E1 & F).
  exists cmd, l, a. split; [|exact F].
  cbn [emit effects]. rewrite E1, <- !app_assoc. reflexivity.
Qed.

Lemma task_step_effects_witness :
  run_step (Some (TRegisterInput 5)) (mkState (event_wire (3, 42, 1) ++ [2; 7]) [] true) =
    CRunning (mkState [] [EWrite [3; 2; 5]; EEvent (TeensyLineEvent 42 3 1); EAnswer (AInt 0)] true) /\
  exists cmd l a,
    effects (mkState [] [EWrite [3; 2; 5]; EEvent (TeensyLineEvent 42 3 1); EAnswer (AInt 0)] true) =
    effects (mkState (event_wire (3, 42, 1) ++ [2; 7]) [] true) ++ [EWrite cmd] ++ l ++ [EAnswer a] /\
    Forall (fun e => is_event_effect e = true) l.
Proof.
  assert (H : run_step (Some (TRegisterInput 5)) (mkState (event_wire (3, 42, 1) ++ [2; 7]) [] true) =
    CRunning (mkState [] [EWrite [3; 2; 5]; EEvent (TeensyLineEvent 42 3 1); EAnswer (AInt 0)] true))
    by (vm_compute; reflexivity).
  split; [exact H|]. exact (task_step_effects _ _ _ H).
Defined.

(** X12: [register_single_shot] never returns normally: whatever the
    Teensy replies, a returning call raises [TeensyError] with
    [NOT_CONNECTED] or [TEENSY_ERROR] ([_register_single_shot] only
    accepts three-field replies, and no message kind with three fields is
    an acknowledgement). *)
Theorem register_single_shot_never_succeeds (line : Z) (c : coord) (r : result unit) (c' : coord) :
  register_single_shot line c = Returned r c' ->
  r = Raise (TeensyErrorRaised (AInt NOT_CONNECTED)) \/
  r = Raise (TeensyErrorRaised (AInt TEENSY_ERROR)).
Proof.
  unfold register_single_shot.
  destruct (connected (coord_state c)) eqn:Hc.
  - destruct c as [s|s|s]; [|unfold call; rewrite Hc; intros H; discriminate H..].
    cbn [coord_state] in Hc. rewrite (call_running _ _ _ Hc).
    destruct (_handle_task (TRegisterSingleShot line) s) as [a s1|e s1|s1] eqn:E;
      intros H; try discriminate H.
    injection H as <- _. right.
    rewrite (single_shot_answer line s a s1 E). reflexivity.
  - rewrite (call_not_connected _ _ _ Hc). intros H. injection H as <- _. left. reflexivity.
Qed.

Lemma register_single_shot_never_succeeds_witness :
  register_single_shot 5 (CRunning (mkState [3; 3; 5] [] true)) =
    Returned (Raise (TeensyErrorRaised (AInt TEENSY_ERROR)))
             (CRunning (mkState [] [EWrite [3; 3; 5]; EAnswer (AInt TEENSY_ERROR)] true)) /\
  (Raise (TeensyErrorRaised (AInt TEENSY_ERROR)) = @Raise unit (TeensyErrorRaised (AInt NOT_CONNECTED)) \/
   Raise (TeensyErrorRaised (AInt TEENSY_ERROR)) = @Raise unit (TeensyErrorRaised (AInt TEENSY_ERROR))).
Proof.
  assert (H : register_single_shot 5 (CRunning (mkState [3; 3; 5] [] true)) =
    Returned (Raise (TeensyErrorRaised (AInt TEENSY_ERROR)))
             (CRunning (mkState [] [EWrite [3; 3; 5]; EAnswer (AInt TEENSY_ERROR)] true)))
    by (vm_compute; reflexivity).
  split; [exact H|]. exact (register_single_shot_never_succeeds _ _ _ _ H).
Defined.

Lemma app_snoc2 {T} (L : list T) x y : L ++ [x; y] = (L ++ [x]) ++ [y].
Proof. now rewrite <- app_assoc. Qed.

(** After the command frame is written and a complete non-event reply
    frame [f] is read, [_register_line] and [_deregister_input] go on with
    [parse_packet f]. *)
Lemma register_step line f rest L c :
  0 <= line < 256 -> take_frame (f ++ rest) = Some (f, rest) -> is_event f = Ok false ->
  _register_line line (mkState (f ++ rest) L c) =
  (tup <- lift (parse_packet f) ;;
   match tup with
   | [_; reply] =>
       if pyval_eqb reply (VInt ACKNOWLEDGE_SUCCES) then ret (AInt NO_ERROR)
       else if pyval_eqb reply (VInt ACKNOWLEDGE_LINE_INVALID)
       then ret (AInt INVALID_TRIGGER_LINE)
       else ret (AInt TEENSY_ERROR)
   | _ => throw ValueError
   end) (mkState rest (L ++ [EWrite [3; REGISTER_INPUT; line]]) c).
Proof.
  intros Hl Htf Hev. unfold _register_line.
  rewrite (prepare_register_ok line Hl), bind_lift_ok. cbv beta.
  rewrite bind_write. cbv beta.
  rewrite (bind_done _ _ _ _ _ (read_packet_nonevent true
             (emit (EWrite [3; REGISTER_INPUT; line]) (mkState (f ++ rest) L c)) f rest Htf Hev)).
  reflexivity.
Qed.

Lemma deregister_step line f rest L c :
  0 <= line < 256 -> take_frame (f ++ rest) = Some (f, rest) -> is_event f = Ok false ->
  _deregister_input line (mkState (f ++ rest) L c) =
  (tup <- lift (parse_packet f) ;;
   match tup with
   | [_; reply] =>
       if pyval_eqb reply (VInt ACKNOWLEDGE_SUCCES) then ret (AInt NO_ERROR)
       else throw AssertionError
   | _ => throw ValueError
   end) (mkState rest (L ++ [EWrite [3; DEREGISTER_INPUT; line]]) c).
Proof.
  intros Hl Htf Hev. unfold _deregister_input.
  rewrite (prepare_deregister_ok line Hl), bind_lift_ok. cbv beta.
  rewrite bind_write. cbv beta.
  rewrite (bind_done _ _ _ _ _ (read_packet_nonevent true
             (emit (EWrite [3; DEREGISTER_INPUT; line]) (mkState (f ++ rest) L c)) f rest Htf Hev)).
  reflexivity.
Qed.

(** The kinds whose payload is empty (a two-field tuple). *)
Lemma payload_dict_two k :
  _payload_dict k = Some [FB; FB] ->
  k = TIME \/ k = ACKNOWLEDGE_SUCCES \/ k = ACKNOWLEDGE_FAILURE \/ k = ACKNOWLEDGE_LINE_INVALID.
Proof.
  unfold _payload_dict. split_ifs; intros H;
    try (vm_compute in H; discriminate H);
    match goal with E : (k =? _) = true |- _ => apply Z.eqb_eq in E; subst k end;
    first [ left; reflexivity | right; left; reflexivity
          | right; right; left; reflexivity | right; right; right; reflexivity ].
Qed.

(** X13: [deregister_input] never reports a Teensy error: a call that
    returns either succeeds or raises [NOT_CONNECTED]; a complete reply
    frame whose kind byte is not [AcknowledgeSuccess] ends the thread
    (with [connected] false) and the call never returns. *)
Theorem deregister_input_outcomes :
  (forall (line : Z) (c : coord) (r : result unit) (c' : coord),
     deregister_input line c = Returned r c' ->
     r = Ok tt \/ r = Raise (TeensyErrorRaised (AInt NOT_CONNECTED))) /\
  (forall line f rest L,
     0 <= line < 256 -> take_frame (f ++ rest) = Some (f, rest) -> is_event f = Ok false ->
     nth_error f 1 <> Some ACKNOWLEDGE_SUCCES ->
     deregister_input line (CRunning (mkState (f ++ rest) L true)) =
       Hangs (CDead (mkState rest (L ++ [EWrite [3; DEREGISTER_INPUT; line]]) false))).
Proof.
  split.
  - intros line c r c'. unfold deregister_input.
    destruct (connected (coord_state c)) eqn:Hc.
    + destruct c as [s|s|s]; [|unfold call; rewrite Hc; intros H; discriminate H..].
      cbn [coord_state] in Hc. rewrite (call_running _ _ _ Hc).
      destruct (_handle_task (TDeregisterInput line) s) as [a s1|e s1|s1] eqn:E;
        intros H; try discriminate H.
      injection H as <- _. left.
      rewrite (deregister_answer line s a s1 E). reflexivity.
    + rewrite (call_not_connected _ _ _ Hc). intros H. injection H as <- _. right. reflexivity.
  - intros line f rest L Hl Htf Hev Hk. unfold deregister_input.
    rewrite (call_running _ _ (mkState (f ++ rest) L true)) by reflexivity.
    cbn [_handle_task]. rewrite (deregister_step line f rest L true Hl Htf Hev).
    destruct (parse_packet f) as [tup|e] eqn:Ep; [|reflexivity].
    destruct (parse_packet_fields _ _ Ep) as (k & fs' & Ek & _ & _ & ->).
    destruct (unpack_items fs' (tl (tl f))) as [|v vs]; [|reflexivity].
    rewrite bind_lift_ok. cbv beta iota. cbn [pyval_eqb].
    destruct (Z.eqb_spec k ACKNOWLEDGE_SUCCES) as [->|_]; [contradiction|reflexivity].
Qed.

Lemma deregister_input_outcomes_witness :
  (deregister_input 5 (CRunning (mkState [2; 7] [] true)) =
     Returned (Ok tt) (CRunning (mkState [] [EWrite [3; 4; 5]; EAnswer (AInt NO_ERROR)] true)) /\
   (@Ok unit tt = Ok tt \/ @Ok unit tt = Raise (TeensyErrorRaised (AInt NOT_CONNECTED)))) /\
  (0 <= 5 < 256 /\ take_frame ([2; 9] ++ [2; 7]) = Some ([2; 9], [2; 7]) /\
   is_event [2; 9] = Ok false /\ nth_error [2; 9] 1 <> Some ACKNOWLEDGE_SUCCES /\
   deregister_input 5 (CRunning (mkState ([2; 9] ++ [2; 7]) [] true)) =
     Hangs (CDead (mkState [2; 7] ([] ++ [EWrite [3; DEREGISTER_INPUT; 5]]) false))).
Proof.
  assert (H : deregister_input 5 (CRunning (mkState [2; 7] [] true)) =
    Returned (Ok tt) (CRunning (mkState [] [EWrite [3; 4; 5]; EAnswer (AInt NO_ERROR)] true)))
    by (vm_compute; reflexivity).
  assert (H1 : 0 <= 5 < 256) by lia.
  assert (H2 : take_frame ([2; 9] ++ [2; 7]) = Some ([2; 9], [2; 7])) by reflexivity.
  assert (H3 : is_event [2; 9] = Ok false) by reflexivity.
  assert (H4 : nth_error [2; 9] 1 <> Some ACKNOWLEDGE_SUCCES) by (vm_compute; discriminate).
  split.
  - split; [exact H|]. exact (proj1 deregister_input_outcomes _ _ _ _ H).
  - split; [exact H1|]. split; [exact H2|]. split; [exact H3|]. split; [exact H4|].
    exact (proj2 deregister_input_outcomes 5 [2; 9] [2; 7] [] H1 H2 H3 H4).
Defined.

(** X14: [_identify] sends [38, IDENTIFY] and the host uuid.  It returns
    [NO_ERROR] on the reply frame [38, IDENTIFY] followed by the Teensy
    uuid, and (the port delivering bytes) only when exactly that frame
    was read. *)
Theorem identify_accepts_only_exact_reply :
  (forall rest L c,
     _identify (mkState ((38 :: IDENTIFY :: ZEP_TEENSY_TO_ZEP_UUID) ++ rest) L c) =
     Done NO_ERROR (mkState rest (L ++ [EWrite (38 :: IDENTIFY :: ZEP_ZEP_TO_TEENSY_UUID)]) c)) /\
  (forall st st', bytes_only (input st) -> _identify st = Done NO_ERROR st' ->
     exists pre, input st = pre ++ (38 :: IDENTIFY :: ZEP_TEENSY_TO_ZEP_UUID) ++ input st').
Proof.
  split.
  - intros rest L c. reflexivity.
  - intros st st' Hb H. unfold _identify in H.
    rewrite prepare_identify_zep, bind_lift_ok in H. cbv beta in H.
    rewrite bind_write in H. cbv beta in H.
    apply bind_done_inv in H as (p & s2 & Hr & H).
    apply bind_done_inv in H as (tup & s3 & Hp & H).
    apply lift_done_inv in Hp as [Hp ->].
    destruct (read_fuel_frame _ true (emit (EWrite (38 :: IDENTIFY :: ZEP_ZEP_TO_TEENSY_UUID)) st)
                p s2 Hb Hr) as (pre & Ei & Hhd & _ & _).
    apply parse_packet_fields in Hp as (k & fs' & Ek & F & Hl & ->).
    destruct (unpack_items fs' (tl (tl p))) as [|uuid [|v2 vs]] eqn:Eu; try discriminate H.
    revert H. cbn [pyval_eqb].
    destruct (Z.eqb_spec k IDENTIFY) as [->|_];
      [|cbn [negb]; unfold ret, NOT_A_TEENSY, NO_ERROR; intros H; discriminate H].
    assert (Efs : fs' = [FS 36]) by (vm_compute in F; congruence). subst fs'.
    cbn [negb].
    destruct (pyval_eqb uuid (VBytes ZEP_TEENSY_TO_ZEP_UUID)) eqn:Eq;
      [|cbn [negb]; unfold ret, NOT_A_TEENSY, NO_ERROR; intros H; discriminate H].
    unfold ret. intros H. injection H as Hs. subst st'.
    change (fmt_size [FB; FB; FS 36]) with 38%nat in Hl.
    destruct p as [|a [|b u]]; cbn [length] in Hl; try discriminate Hl.
    cbn [nth_error] in Ek. injection Ek as ->.
    change (unpack_items [FS 36] (tl (tl (a :: IDENTIFY :: u)))) with [VBytes (firstn 36 u)] in Eu.
    assert (Hu : uuid = VBytes (firstn 36 u)) by congruence. subst uuid.
    injection Hl as Hl.
    rewrite firstn_all2 in Eq by lia.
    cbn [pyval_eqb] in Eq. apply bytes_eqb_true in Eq. subst u.
    cbn [hd length] in Hhd.
    assert (Ea : a = 38) by lia. subst a.
    exists pre. exact Ei.
Qed.

(** X16: [time()] on a Teensy that answers the [Time] frame with a
    two-field acknowledgement ([AcknowledgeSuccess], [AcknowledgeFailure]
    or [AcknowledgeLineInvalid]): [_time]'s three-name unpacking raises,
    the thread ends with [connected] cleared, and the call never returns. *)
Theorem time_ack_reply_kills_thread (kind : Z) (rest : list Z) (L : list effect) :
  kind = ACKNOWLEDGE_SUCCES \/ kind = ACKNOWLEDGE_FAILURE \/ kind = ACKNOWLEDGE_LINE_INVALID ->
  time (CRunning (mkState ([2; kind] ++ rest) L true)) =
  Hangs (CDead (mkState rest (L ++ [EWrite [2; TIME]]) false)).
Proof.
  intros Hk. unfold time. rewrite call_running by reflexivity.
  destruct Hk as [->|[->| ->]]; reflexivity.
Qed.

Lemma time_ack_reply_kills_thread_witness :
  (ACKNOWLEDGE_FAILURE = ACKNOWLEDGE_SUCCES \/ ACKNOWLEDGE_FAILURE = ACKNOWLEDGE_FAILURE \/
   ACKNOWLEDGE_FAILURE = ACKNOWLEDGE_LINE_INVALID) /\
  time (CRunning (mkState ([2; ACKNOWLEDGE_FAILURE] ++ [9]) [] true)) =
  Hangs (CDead (mkState [9] ([] ++ [EWrite [2; TIME]]) false)).
Proof.
  assert (H : ACKNOWLEDGE_FAILURE = ACKNOWLEDGE_SUCCES \/ ACKNOWLEDGE_FAILURE = ACKNOWLEDGE_FAILURE \/
              ACKNOWLEDGE_FAILURE = ACKNOWLEDGE_LINE_INVALID) by (right; left; reflexivity).
  split; [exact H|]. exact (time_ack_reply_kills_thread _ [9] [] H).
Defined.

(** X17: [time()] on a Teensy that answers the [Time] frame with another
    three-field frame ([RegisterInput], [RegisterSingleShot] or
    [DeregisterInput]): [_time] answers [(TeensyError(TEENSY_ERROR),
    None)], and [time()] raises a [TeensyError] whose error is that
    [TeensyError] object, not a code: its [str()] raises [KeyError]. *)
Theorem time_unexpected_reply_error_unprintable (kind x : Z) (rest : list Z) (L : list effect) :
  kind = REGISTER_INPUT \/ kind = REGISTER_SINGLE_SHOT \/ kind = DEREGISTER_INPUT ->
  time (CRunning (mkState ([3; kind; x] ++ rest) L true)) =
    Returned (Raise (TeensyErrorRaised ATupleErr))
             (CRunning (mkState rest (L ++ [EWrite [2; TIME]; EAnswer ATupleErr]) true)) /\
  TeensyError_str ATupleErr None = Raise KeyError.
Proof.
  intros Hk. split; [|reflexivity].
  unfold time. rewrite call_running by reflexivity.
  transitivity (@Returned pyval (Raise (TeensyErrorRaised ATupleErr))
    (CRunning (mkState rest ((L ++ [EWrite [2; TIME]]) ++ [EAnswer ATupleErr]) true))).
  - destruct Hk as [->|[->| ->]]; reflexivity.
  - now rewrite <- app_assoc.
Qed.

Lemma time_unexpected_reply_error_unprintable_witness :
  (REGISTER_INPUT = REGISTER_INPUT \/ REGISTER_INPUT = REGISTER_SINGLE_SHOT \/
   REGISTER_INPUT = DEREGISTER_INPUT) /\
  time (CRunning (mkState ([3; REGISTER_INPUT; 5] ++ []) [] true)) =
    Returned (Raise (TeensyErrorRaised ATupleErr))
             (CRunning (mkState [] ([] ++ [EWrite [2; TIME]; EAnswer ATupleErr]) true)) /\
  TeensyError_str ATupleErr None = Raise KeyError.
Proof.
  assert (H : REGISTER_INPUT = REGISTER_INPUT \/ REGISTER_INPUT = REGISTER_SINGLE_SHOT \/
              REGISTER_INPUT = DEREGISTER_INPUT) by (left; reflexivity).
  split; [exact H|]. exact (time_unexpected_reply_error_unprintable _ 5 [] [] H).
Defined.

(** X18: when the thread fails on a task (an exception in its handler),
    the calling method never returns, and from then on every public
    method raises [TeensyError(NOT_CONNECTED)] at once. *)
Theorem call_after_thread_failure {A} (t : task) (client : answer -> result A)
    (s : state) (e : exn) (s1 : state) :
  connected s = true -> _handle_task t s = Thrown e s1 ->
  call t client (CRunning s) = Hangs (CDead (set_connected false s1)) /\
  (forall B (t' : task) (client' : answer -> result B),
     call t' client' (CDead (set_connected false s1)) =
     Returned (Raise (TeensyErrorRaised (AInt NOT_CONNECTED))) (CDead (set_connected false s1))).
Proof.
  intros Hc E. split.
  - rewrite (call_running _ _ _ Hc), E. reflexivity.
  - intros B t' client'. apply call_not_connected. reflexivity.
Qed.

Lemma call_after_thread_failure_witness :
  connected (mkState [2; 9] [] true) = true /\
  _handle_task (TDeregisterInput 5) (mkState [2; 9] [] true) =
    Thrown AssertionError (mkState [] [EWrite [3; 4; 5]] true) /\
  deregister_input 5 (CRunning (mkState [2; 9] [] true)) =
    Hangs (CDead (set_connected false (mkState [] [EWrite [3; 4; 5]] true))) /\
  time (CDead (set_connected false (mkState [] [EWrite [3; 4; 5]] true))) =
    Returned (Raise (TeensyErrorRaised (AInt NOT_CONNECTED)))
             (CDead (set_connected false (mkState [] [EWrite [3; 4; 5]] true))).
Proof.
  assert (Hc : connected (mkState [2; 9] [] true) = true) by reflexivity.
  assert (E : _handle_task (TDeregisterInput 5) (mkState [2; 9] [] true) =
              Thrown AssertionError (mkState [] [EWrite [3; 4; 5]] true)) by (vm_compute; reflexivity).
  destruct (call_after_thread_failure (TDeregisterInput 5) client_reply _ _ _ Hc E) as [H1 H2].
  split; [exact Hc|]. split; [exact E|]. split; [exact H1|].
  exact (H2 pyval TTime client_time).
Defined.

Lemma identify_accepts_only_exact_reply_witness :
  bytes_only (input (mkState ((38 :: IDENTIFY :: ZEP_TEENSY_TO_ZEP_UUID) ++ [2; 7]) [] false)) /\
  _identify (mkState ((38 :: IDENTIFY :: ZEP_TEENSY_TO_ZEP_UUID) ++ [2; 7]) [] false) =
    Done NO_ERROR (mkState [2; 7] [EWrite (38 :: IDENTIFY :: ZEP_ZEP_TO_TEENSY_UUID)] false) /\
  exists pre, input (mkState ((38 :: IDENTIFY :: ZEP_TEENSY_TO_ZEP_UUID) ++ [2; 7]) [] false) =
    pre ++ (38 :: IDENTIFY :: ZEP_TEENSY_TO_ZEP_UUID) ++
    input (mkState [2; 7] [EWrite (38 :: IDENTIFY :: ZEP_ZEP_TO_TEENSY_UUID)] false).
Proof.
  assert (Hb : bytes_only (input (mkState ((38 :: IDENTIFY :: ZEP_TEENSY_TO_ZEP_UUID) ++ [2; 7]) [] false)))
    by (apply bytes_only_check; vm_compute; reflexivity).
  assert (H : _identify (mkState ((38 :: IDENTIFY :: ZEP_TEENSY_TO_ZEP_UUID) ++ [2; 7]) [] false) =
    Done NO_ERROR (mkState [2; 7] [EWrite (38 :: IDENTIFY :: ZEP_ZEP_TO_TEENSY_UUID)] false))
    by (vm_compute; reflexivity).
  split; [exact Hb|]. split; [exact H|].
  exact (proj2 identify_accepts_only_exact_reply _ _ Hb H).
Defined.

(** C3: the round trip the claim cites fails in [src/Teensy.py]: its
    [_TeensyPackage.prepare_single_shot] packs two values into the
    three-byte format, so [struct.pack] raises for every line and there is
    no buffer to decode; the same command in [src/pyteensy.py] packs
    [(3, REGISTER_SINGLE_SHOT, n)] and [parse_packet] gives it back. *)
Theorem legacy_single_shot_no_roundtrip :
  (forall n, 0 <= n < 256 ->
     exists b, prepare_single_shot n = Ok b /\
               parse_packet b = Ok [VInt 3; VInt REGISTER_SINGLE_SHOT; VInt n]) /\
  (forall n, ~ exists b, Teensy_legacy.prepare_single_shot n = Ok b).
Proof.
  split.
  - intros n Hn. exists [3; 3; n]. split.
    + apply (prepare_line_bytes _ REGISTER_SINGLE_SHOT n);
        [reflexivity | unfold REGISTER_SINGLE_SHOT; lia | exact Hn].
    + reflexivity.
  - intros n [b H].
    assert (E : Teensy_legacy.prepare_single_shot n = Raise StructError) by reflexivity.
    rewrite E in H. discriminate H.
Qed.

Lemma legacy_single_shot_no_roundtrip_witness :
  (0 <= 7 < 256 /\ exists b, prepare_single_shot 7 = Ok b /\
     parse_packet b = Ok [VInt 3; VInt REGISTER_SINGLE_SHOT; VInt 7]) /\
  ~ exists b, Teensy_legacy.prepare_single_shot 7 = Ok b.
Proof.
  assert (H : 0 <= 7 < 256) by lia.
  split; [split; [exact H | exact (proj1 legacy_single_shot_no_roundtrip 7 H)]|].
  exact (proj2 legacy_single_shot_no_roundtrip 7).
Defined.

(** C4: for [register_line], once the command frame is written and a
    complete non-event reply frame [f] is read: a two-field reply has one
    of the kinds [Time], [AcknowledgeSuccess], [AcknowledgeFailure],
    [AcknowledgeLineInvalid]; the thread answers [NO_ERROR] for
    [AcknowledgeSuccess], [INVALID_TRIGGER_LINE] for
    [AcknowledgeLineInvalid] and [TEENSY_ERROR] otherwise, and the call
    returns (raising [TeensyError] on a nonzero code).  Any other reply
    (unknown kind, wrong size, three or more fields) makes [_register_line]
    raise: the thread ends with [connected] false and the call never
    returns. *)
Theorem register_line_reply_outcomes :
  forall line f rest L,
    0 <= line < 256 -> take_frame (f ++ rest) = Some (f, rest) -> is_event f = Ok false ->
    match parse_packet f with
    | Ok [_; VInt k] =>
        (k = TIME \/ k = ACKNOWLEDGE_SUCCES \/ k = ACKNOWLEDGE_FAILURE \/
         k = ACKNOWLEDGE_LINE_INVALID) /\
        register_line line (CRunning (mkState (f ++ rest) L true)) =
          Returned
            (client_reply (AInt (if k =? ACKNOWLEDGE_SUCCES then NO_ERROR
                                 else if k =? ACKNOWLEDGE_LINE_INVALID then INVALID_TRIGGER_LINE
                                 else TEENSY_ERROR)))
            (CRunning (mkState rest
               (L ++ [EWrite [3; REGISTER_INPUT; line];
                      EAnswer (AInt (if k =? ACKNOWLEDGE_SUCCES then NO_ERROR
                                     else if k =? ACKNOWLEDGE_LINE_INVALID then INVALID_TRIGGER_LINE
                                     else TEENSY_ERROR))]) true))
    | _ =>
        register_line line (CRunning (mkState (f ++ rest) L true)) =
          Hangs (CDead (mkState rest (L ++ [EWrite [3; REGISTER_INPUT; line]]) false))
    end.
Proof.
  intros line f rest L Hl Htf Hev. unfold register_line.
  rewrite (call_running _ _ (mkState (f ++ rest) L true)) by reflexivity.
  cbn [_handle_task]. rewrite (register_step line f rest L true Hl Htf Hev).
  destruct (parse_packet f) as [tup|e] eqn:Ep; [|reflexivity].
  destruct (parse_packet_fields _ _ Ep) as (k & fs' & Ek & F & _ & ->).
  assert (Hu := unpack_items_length fs' (tl (tl f))).
  destruct (unpack_items fs' (tl (tl f))) as [|v [|v2 vs]]; [|reflexivity|reflexivity].
  cbv beta iota. split.
  - apply payload_dict_two.
    destruct fs'; [exact F | cbn [length] in Hu; discriminate Hu].
  - rewrite bind_lift_ok. cbv beta iota. cbn [pyval_eqb].
    rewrite app_snoc2.
    destruct (k =? ACKNOWLEDGE_SUCCES); [|destruct (k =? ACKNOWLEDGE_LINE_INVALID)]; reflexivity.
Qed.

Lemma register_line_reply_outcomes_witness :
  0 <= 5 < 256 /\ take_frame ([2; ACKNOWLEDGE_FAILURE] ++ [2; 7]) = Some ([2; ACKNOWLEDGE_FAILURE], [2; 7]) /\
  is_event [2; ACKNOWLEDGE_FAILURE] = Ok false /\
  (ACKNOWLEDGE_FAILURE = TIME \/ ACKNOWLEDGE_FAILURE = ACKNOWLEDGE_SUCCES \/
   ACKNOWLEDGE_FAILURE = ACKNOWLEDGE_FAILURE \/ ACKNOWLEDGE_FAILURE = ACKNOWLEDGE_LINE_INVALID) /\
  register_line 5 (CRunning (mkState ([2; ACKNOWLEDGE_FAILURE] ++ [2; 7]) [] true)) =
    Returned (client_reply (AInt TEENSY_ERROR))
      (CRunning (mkState [2; 7] ([] ++ [EWrite [3; REGISTER_INPUT; 5]; EAnswer (AInt TEENSY_ERROR)]) true)).
Proof.
  assert (H1 : 0 <= 5 < 256) by lia.
  assert (H2 : take_frame ([2; ACKNOWLEDGE_FAILURE] ++ [2; 7]) = Some ([2; ACKNOWLEDGE_FAILURE], [2; 7]))
    by reflexivity.
  assert (H3 : is_event [2; ACKNOWLEDGE_FAILURE] = Ok false) by reflexivity.
  split; [exact H1|]. split; [exact H2|]. split; [exact H3|].
  exact (register_line_reply_outcomes 5 [2; ACKNOWLEDGE_FAILURE] [2; 7] [] H1 H2 H3).
Defined.

(** C5: [_deregister_input] treats an [AcknowledgeLineInvalid] reply as a
    failed [assert]: the thread ends with [connected] false, no answer is
    queued and [deregister_input] never returns, while [register_line]
    maps the same reply to [INVALID_TRIGGER_LINE] and returns. *)
Theorem deregister_line_invalid_hangs_caller :
  forall line rest L,
    0 <= line < 256 ->
    deregister_input line (CRunning (mkState ([2; ACKNOWLEDGE_LINE_INVALID] ++ rest) L true)) =
      Hangs (CDead (mkState rest (L ++ [EWrite [3; DEREGISTER_INPUT; line]]) false)) /\
    register_line line (CRunning (mkState ([2; ACKNOWLEDGE_LINE_INVALID] ++ rest) L true)) =
      Returned (Raise (TeensyErrorRaised (AInt INVALID_TRIGGER_LINE)))
        (CRunning (mkState rest
           (L ++ [EWrite [3; REGISTER_INPUT; line]; EAnswer (AInt INVALID_TRIGGER_LINE)]) true)).
Proof.
  intros line rest L Hl.
  assert (Htf : take_frame ([2; ACKNOWLEDGE_LINE_INVALID] ++ rest) =
                Some ([2; ACKNOWLEDGE_LINE_INVALID], rest)) by reflexivity.
  assert (Hev : is_event [2; ACKNOWLEDGE_LINE_INVALID] = Ok false) by reflexivity.
  split.
  - unfold deregister_input.
    rewrite (call_running _ _ (mkState ([2; ACKNOWLEDGE_LINE_INVALID] ++ rest) L true)) by reflexivity.
    cbn [_handle_task]. rewrite (deregister_step line _ rest L true Hl Htf Hev). reflexivity.
  - unfold register_line.
    rewrite (call_running _ _ (mkState ([2; ACKNOWLEDGE_LINE_INVALID] ++ rest) L true)) by reflexivity.
    cbn [_handle_task]. rewrite (register_step line _ rest L true Hl Htf Hev).
    rewrite app_snoc2. reflexivity.
Qed.

Lemma deregister_line_invalid_hangs_caller_witness :
  0 <= 5 < 256 /\
  deregister_input 5 (CRunning (mkState ([2; ACKNOWLEDGE_LINE_INVALID] ++ []) [] true)) =
    Hangs (CDead (mkState [] ([] ++ [EWrite [3; DEREGISTER_INPUT; 5]]) false)) /\
  register_line 5 (CRunning (mkState ([2; ACKNOWLEDGE_LINE_INVALID] ++ []) [] true)) =
    Returned (Raise (TeensyErrorRaised (AInt INVALID_TRIGGER_LINE)))
      (CRunning (mkState [] ([] ++ [EWrite [3; REGISTER_INPUT; 5]; EAnswer (AInt INVALID_TRIGGER_LINE)]) true)).
Proof.
  assert (H : 0 <= 5 < 256) by lia.
  split; [exact H|]. exact (deregister_line_invalid_hangs_caller 5 [] [] H).
Defined.
